(** * social-dashboard: the client-side state layer of [static/js/app.js]

    A shallow embedding of the Alpine component returned by [dashboard()]
    and the properties its specification states about it.

    Part I gives the model, one module per component of the script:
    - [Js]         the few JavaScript primitives the script leans on
                   (Number printing, JSON values, [URLSearchParams]);
    - [Formatters] [timeAgo] and [formatNumber];
    - [Page]       the component state, the effect monad and the fetches
                   ([fetchAll], the six [fetchX], [triggerScrape]);
    - [Channel]    [connectSSE] and its three handlers, with the timer queue;
    - [Chart]      the pivot of [renderChart] and the chart handle.

    Part II names what the statements talk about; Part III states and
    proves the properties. *)

From Stdlib Require Import ZArith Floats Uint63 String Ascii List Bool Lia.
From Stdlib Require Import DecimalString Sorted Permutation OrderedTypeEx.
From stdpp Require Import base gmap strings list sorting.
Import ListNotations.

#[local] Open Scope string_scope.
#[local] Open Scope Z_scope.

(* ===================================================================== *)
(** * Part I: the model                                                   *)
(* ===================================================================== *)

(** ** JavaScript primitives *)

Module Js.

(** [String(n)] and [`${n}`] for an integer-valued Number. *)
Definition show (z : Z) : string := NilZero.string_of_int (Z.to_int z).

(** An integer as a Number (an IEEE double). Exact on the safe integers
    ([|z| < 2^53]), which is where counts and millisecond clocks live. *)
Definition toNumber (z : Z) : float :=
  if z <? 0 then PrimFloat.opp (PrimFloat.of_uint63 (Uint63.of_Z (- z)))
  else PrimFloat.of_uint63 (Uint63.of_Z z).

(** The integer [n] for which [n / 10 - x] is closest to zero, the larger
    one on a tie, for the exact value [x = m * 2^e] of a positive double. *)
Definition tenths (m : positive) (e : Z) : Z :=
  if 0 <=? e then 10 * Z.pos m * 2 ^ e
  else (20 * Z.pos m + 2 ^ (- e)) / 2 ^ (- e + 1).

(** The digits of [n >= 0] with a point before the last one. *)
Definition point1 (n : Z) : string :=
  let s := show n in
  let k := String.length s in
  if (k <=? 1)%nat then "0." ++ s
  else substring 0 (k - 1) s ++ "." ++ substring (k - 1) 1 s.

(** [x.toFixed(1)]. [formatNumber] only calls it on finite [x >= 1] far
    below [1e21], where the result is the rounded tenths in decimal. *)
Definition toFixed1 (x : float) : string :=
  match Prim2SF x with
  | S754_zero _ => "0.0"
  | S754_infinity false => "Infinity"
  | S754_infinity true => "-Infinity"
  | S754_nan => "NaN"
  | S754_finite s m e => (if s then "-" else "") ++ point1 (tenths m e)
  end.

(** JSON values, as [res.json()] and [JSON.parse] build them. An object
    keeps its fields in insertion order, each key once; numbers are kept
    to the integers. *)
#[local] Unset Elimination Schemes.
Inductive json : Type :=
| JNull
| JBool (b : bool)
| JNum (n : Z)
| JStr (s : string)
| JArr (items : list json)
| JObj (fields : list (string * json)).
#[local] Set Elimination Schemes.

Inductive Exn : Type :=
| TypeError (msg : string)
| SyntaxError (msg : string).

(** First binding of [k] in an association list. *)
Fixpoint assoc {A : Type} (k : string) (l : list (string * A)) : option A :=
  match l with
  | [] => None
  | (k', v) :: l' => if String.eqb k' k then Some v else assoc k l'
  end.

(** [v.event]: reading a property of null throws; a primitive or an array
    has no such property; an object answers from its own fields
    ([Object.prototype] has no [event]). [None] is [undefined]. *)
Definition get_event (v : json) : Exn + option json :=
  match v with
  | JNull => inl (TypeError "Cannot read properties of null")
  | JObj fields => inr (assoc "event" fields)
  | _ => inr None
  end.

(** [x === 'lit'] *)
Definition strict_eq_str (x : option json) (lit : string) : bool :=
  match x with
  | Some (JStr s) => String.eqb s lit
  | _ => false
  end.

(** [URLSearchParams]: an ordered list of name/value pairs. *)
Definition URLSearchParams : Type := list (string * string).

(** [params.set(k, v)]: overwrite the first pair named [k] and drop the
    others, or append. *)
Fixpoint params_set (k v : string) (p : URLSearchParams) : URLSearchParams :=
  match p with
  | [] => [(k, v)]
  | (k', v') :: p' =>
      if String.eqb k' k
      then (k, v) :: List.filter (fun kv => negb (String.eqb (fst kv) k)) p'
      else (k', v') :: params_set k v p'
  end.

(** [params.get(k)] *)
Definition params_get (k : string) (p : URLSearchParams) : option string :=
  assoc k p.

End Js.

(** ** Formatters *)

Module Formatters.

(** What the templates hand to [timeAgo]: a timestamp field that is
    missing, null, or a string. *)
Inductive IsoArg : Type :=
| Undefined
| Null
| Str (s : string).

(** [!isoStr] *)
Definition absent (a : IsoArg) : bool :=
  match a with
  | Undefined | Null => true
  | Str s => String.eqb s ""
  end.

Section TimeAgo.

(** [new Date(s).getTime()]: the epoch milliseconds of [s], [None] for an
    Invalid Date (NaN). Parsing is the host's. *)
Variable Date_parse : string -> option Z.

(** [timeAgo(isoStr)] at clock [now = Date.now()]. Clock values are integer
    milliseconds within 8.64e15 of the epoch, each a double of its own.
    While [now - t] is no further than [2^53] from zero the subtraction is
    exact, and the quotient by 60000 stays below [2^38], where neighbouring
    doubles are at most [2^-15] apart: rounding moves it by at most
    [2^-16], which is less than [1 / 60000], hence never onto or across an
    integer, so [Math.floor(diff / 60000)] is the floor division
    below (and so are the divisions by 60 and 24). This is the range the
    model is meant for; beyond it the script rounds [diff] and the two may
    part. A NaN [diff] fails every comparison and falls to the last
    return. *)
Definition timeAgo (now : Z) (isoStr : IsoArg) : string :=
  if absent isoStr then "N/A"
  else
    match isoStr with
    | Str s =>
        match Date_parse s with
        | Some t =>
            let diff := now - t in
            let mins := diff / 60000 in
            if mins <? 1 then "just now"
            else if mins <? 60 then Js.show mins ++ "m ago"
            else
              let hrs := mins / 60 in
              if hrs <? 24 then Js.show hrs ++ "h ago"
              else Js.show (hrs / 24) ++ "d ago"
        | None => "NaNd ago"
        end
    | _ => "N/A"
    end.

End TimeAgo.

(** [formatNumber(n)] on an integer count. *)
Definition formatNumber (n : Z) : string :=
  let x := Js.toNumber n in
  if PrimFloat.leb (Js.toNumber 1000000) x
  then Js.toFixed1 (PrimFloat.div x (Js.toNumber 1000000)) ++ "M"
  else if PrimFloat.leb (Js.toNumber 1000) x
  then Js.toFixed1 (PrimFloat.div x (Js.toNumber 1000)) ++ "K"
  else Js.show n.

End Formatters.

(** ** The component state and the fetches *)

Module Page.
Import Js.

(** The reactive object returned by [dashboard()]. *)
Record State : Type := mkState {
  tab : string;
  sourceFilter : string;
  searchQuery : string;
  posts : json;
  trends : json;
  stats : json;
  sourceStats : json;
  runs : json;
  activityData : json;
  sseConnected : bool;
  loading : bool;
  lastUpdate : option string
}.

Definition initial : State :=
  {| tab := "overview"; sourceFilter := "all"; searchQuery := "";
     posts := JArr []; trends := JArr [];
     stats := JObj [("total_posts", JNum 0); ("posts_today", JNum 0);
                    ("avg_engagement", JNum 0); ("per_source", JObj [])];
     sourceStats := JArr []; runs := JArr []; activityData := JArr [];
     sseConnected := false; loading := true; lastUpdate := None |}.

Definition with_posts (v : json) (s : State) : State :=
  mkState (tab s) (sourceFilter s) (searchQuery s) v (trends s) (stats s)
          (sourceStats s) (runs s) (activityData s) (sseConnected s)
          (loading s) (lastUpdate s).
Definition with_trends (v : json) (s : State) : State :=
  mkState (tab s) (sourceFilter s) (searchQuery s) (posts s) v (stats s)
          (sourceStats s) (runs s) (activityData s) (sseConnected s)
          (loading s) (lastUpdate s).
Definition with_stats (v : json) (s : State) : State :=
  mkState (tab s) (sourceFilter s) (searchQuery s) (posts s) (trends s) v
          (sourceStats s) (runs s) (activityData s) (sseConnected s)
          (loading s) (lastUpdate s).
Definition with_sourceStats (v : json) (s : State) : State :=
  mkState (tab s) (sourceFilter s) (searchQuery s) (posts s) (trends s)
          (stats s) v (runs s) (activityData s) (sseConnected s)
          (loading s) (lastUpdate s).
Definition with_runs (v : json) (s : State) : State :=
  mkState (tab s) (sourceFilter s) (searchQuery s) (posts s) (trends s)
          (stats s) (sourceStats s) v (activityData s) (sseConnected s)
          (loading s) (lastUpdate s).
Definition with_activityData (v : json) (s : State) : State :=
  mkState (tab s) (sourceFilter s) (searchQuery s) (posts s) (trends s)
          (stats s) (sourceStats s) (runs s) v (sseConnected s)
          (loading s) (lastUpdate s).
Definition with_sseConnected (b : bool) (s : State) : State :=
  mkState (tab s) (sourceFilter s) (searchQuery s) (posts s) (trends s)
          (stats s) (sourceStats s) (runs s) (activityData s) b
          (loading s) (lastUpdate s).
Definition with_loading (b : bool) (s : State) : State :=
  mkState (tab s) (sourceFilter s) (searchQuery s) (posts s) (trends s)
          (stats s) (sourceStats s) (runs s) (activityData s)
          (sseConnected s) b (lastUpdate s).
Definition with_lastUpdate (t : option string) (s : State) : State :=
  mkState (tab s) (sourceFilter s) (searchQuery s) (posts s) (trends s)
          (stats s) (sourceStats s) (runs s) (activityData s)
          (sseConnected s) (loading s) t.

(** A request as [fetch] sees it: the path and the query of the URL. *)
Record Request : Type := mkRequest {
  method : string;
  path : string;
  query : URLSearchParams
}.

Definition GET (p : string) (q : URLSearchParams) : Request := mkRequest "GET" p q.
Definition POST (p : string) : Request := mkRequest "POST" p [].

(** What [res.json()] makes of a response body. *)
Inductive Response : Type :=
| Unparsable
| Parsed (v : json).

(** The backend seen from the page: [None] is a [fetch] that rejects. *)
Definition Backend : Type := Request -> option Response.

(** [() => this.connectSSE()], the only callback given to [setTimeout]. *)
Inductive Callback : Type :=
| Reconnect.

Record Timer : Type := mkTimer {
  due : Z;
  callback : Callback
}.

(** The page: the component state, the millisecond clock, the pending
    [setTimeout] timers and the number of [EventSource] objects built so
    far (the script never closes one). The 30 s [setInterval] of [init]
    is one more caller of [fetchAll] and is not part of the page here. *)
Record World : Type := mkWorld {
  store : State;
  clock : Z;
  timers : list Timer;
  eventSources : nat
}.

Definition with_store (f : State -> State) (w : World) : World :=
  mkWorld (f (store w)) (clock w) (timers w) (eventSources w).

(** What a run leaves behind besides the state. [Entered_fetchAll] marks
    each entry into [fetchAll]; the others are the script's own effects. *)
Inductive Event : Type :=
| Entered_fetchAll
| Fetched (r : Request)
| ConsoleError (msg : string) (e : Exn)
| LoadingSet (b : bool)
| NextTick_renderChart
| EventSourceOpened (url : string).

Inductive Completion (A : Type) : Type :=
| Normal (a : A)
| Abrupt (e : Exn).
Arguments Normal {A} a.
Arguments Abrupt {A} e.

Record Run (A : Type) : Type := mkRun {
  outcome : Completion A;
  after : World;
  emitted : list Event
}.
Arguments mkRun {A} _ _ _.
Arguments outcome {A} _.
Arguments after {A} _.
Arguments emitted {A} _.

(** Code that may write the page, emit effects and throw. An [async]
    method is run to its settlement; a rejection is [Abrupt]. *)
Definition M (A : Type) : Type := World -> Run A.

Definition ret {A : Type} (a : A) : M A := fun w => mkRun (Normal a) w [].

Definition throw {A : Type} (e : Exn) : M A := fun w => mkRun (Abrupt e) w [].

Definition bind {A B : Type} (m : M A) (k : A -> M B) : M B :=
  fun w =>
    match m w with
    | mkRun (Normal a) w1 ev =>
        match k a w1 with
        | mkRun o w2 ev' => mkRun o w2 (ev ++ ev')
        end
    | mkRun (Abrupt e) w1 ev => mkRun (Abrupt e) w1 ev
    end.

Notation "x <- m ;; k" := (bind m (fun x => k))
  (at level 100, m at next level, right associativity).
Notation "m ;; k" := (bind m (fun _ => k))
  (at level 100, right associativity).

(** [try { body } catch (e) { handler }] *)
Definition try_catch (body : M unit) (handler : Exn -> M unit) : M unit :=
  fun w =>
    match body w with
    | mkRun (Normal a) w1 ev => mkRun (Normal a) w1 ev
    | mkRun (Abrupt e) w1 ev =>
        match handler e w1 with
        | mkRun o w2 ev' => mkRun o w2 (ev ++ ev')
        end
    end.

Definition emit (e : Event) : M unit := fun w => mkRun (Normal tt) w [e].

Definition read : M State := fun w => mkRun (Normal (store w)) w [].

Definition write (f : State -> State) : M unit :=
  fun w => mkRun (Normal tt) (with_store f w) [].

Definition console_error (msg : string) (e : Exn) : M unit :=
  emit (ConsoleError msg e).

(** [this.loading = b] *)
Definition set_loading (b : bool) : M unit :=
  write (with_loading b) ;; emit (LoadingSet b).

(** [await Promise.all(ps)]: every started method runs to its settlement
    whatever the others do; the result rejects with the first rejection.
    The methods are settled in array order: one schedule of the many the
    network allows. The six of [fetchAll] write six different fields. *)
Fixpoint promise_all (ps : list (M unit)) : M unit :=
  match ps with
  | [] => ret tt
  | m :: ps' =>
      fun w =>
        match m w with
        | mkRun o w1 ev =>
            match promise_all ps' w1 with
            | mkRun o' w2 ev' =>
                mkRun (match o with
                       | Normal _ => o'
                       | Abrupt e => Abrupt e
                       end)
                      w2 (ev ++ ev')
            end
        end
  end.

(** A call whose promise is dropped: it runs, its settlement goes nowhere. *)
Definition spawn (m : M unit) : M unit :=
  fun w => match m w with mkRun _ w1 ev => mkRun (Normal tt) w1 ev end.

Section Fetches.

Variable backend : Backend.

(** [new Date(ms).toLocaleTimeString()], the host's. *)
Variable toLocaleTimeString : Z -> string.

(** [await fetch(url)] *)
Definition fetch (r : Request) : M Response :=
  emit (Fetched r) ;;
  match backend r with
  | Some res => ret res
  | None => throw (TypeError "Failed to fetch")
  end.

(** [await res.json()] *)
Definition json_of (res : Response) : M json :=
  match res with
  | Parsed v => ret v
  | Unparsable => throw (SyntaxError "Unexpected token")
  end.

Definition postsParams (s : State) : URLSearchParams :=
  let params := [("limit", "50"); ("order", "desc"); ("sort", "engagement_score")] in
  let params :=
    if negb (String.eqb (sourceFilter s) "all")
    then params_set "source" (sourceFilter s) params else params in
  if negb (String.eqb (searchQuery s) "")
  then params_set "search" (searchQuery s) params else params.

Definition trendsParams (s : State) : URLSearchParams :=
  let params := [("limit", "15")] in
  if negb (String.eqb (sourceFilter s) "all")
  then params_set "source" (sourceFilter s) params else params.

Definition fetchPosts : M unit :=
  s <- read ;;
  let params := postsParams s in
  try_catch
    (res <- fetch (GET "/api/posts" params) ;;
     v <- json_of res ;;
     write (with_posts v))
    (fun e => console_error "Failed to fetch posts:" e).

Definition fetchStats : M unit :=
  try_catch
    (res <- fetch (GET "/api/posts/stats" []) ;;
     v <- json_of res ;;
     write (with_stats v))
    (fun e => console_error "Failed to fetch stats:" e).

Definition fetchTrends : M unit :=
  try_catch
    (s <- read ;;
     let params := trendsParams s in
     res <- fetch (GET "/api/trends" params) ;;
     v <- json_of res ;;
     write (with_trends v))
    (fun e => console_error "Failed to fetch trends:" e).

Definition fetchSourceStats : M unit :=
  try_catch
    (res <- fetch (GET "/api/sources/stats" []) ;;
     v <- json_of res ;;
     write (with_sourceStats v))
    (fun e => console_error "Failed to fetch source stats:" e).

Definition fetchRuns : M unit :=
  try_catch
    (res <- fetch (GET "/api/sources/runs" [("limit", "10")]) ;;
     v <- json_of res ;;
     write (with_runs v))
    (fun e => console_error "Failed to fetch runs:" e).

Definition fetchActivity : M unit :=
  try_catch
    (res <- fetch (GET "/api/posts/activity" [("hours", "24")]) ;;
     v <- json_of res ;;
     write (with_activityData v) ;;
     emit NextTick_renderChart)
    (fun e => console_error "Failed to fetch activity:" e).

Definition fetchAll : M unit :=
  emit Entered_fetchAll ;;
  set_loading true ;;
  promise_all [fetchPosts; fetchStats; fetchTrends;
               fetchSourceStats; fetchRuns; fetchActivity] ;;
  set_loading false ;;
  fun w => write (with_lastUpdate (Some (toLocaleTimeString (clock w)))) w.

Definition triggerScrape (source : string) : M unit :=
  try_catch
    (res <- fetch (POST ("/api/scraper/run/" ++ source)) ;;
     data <- json_of res ;;
     fetchAll)
    (fun e => console_error "Failed to trigger scrape:" e).

End Fetches.

(** The six queries of the orchestrated refresh. *)
Inductive Query : Type :=
| QPosts | QStats | QTrends | QSourceStats | QRuns | QActivity.

#[global] Instance Query_eq_dec : EqDecision Query.
Proof. solve_decision. Defined.

Definition run_query (backend : Backend) (q : Query) : M unit :=
  match q with
  | QPosts => fetchPosts backend
  | QStats => fetchStats backend
  | QTrends => fetchTrends backend
  | QSourceStats => fetchSourceStats backend
  | QRuns => fetchRuns backend
  | QActivity => fetchActivity backend
  end.

(** The request a query sends from state [s]. *)
Definition request_of (q : Query) (s : State) : Request :=
  match q with
  | QPosts => GET "/api/posts" (postsParams s)
  | QStats => GET "/api/posts/stats" []
  | QTrends => GET "/api/trends" (trendsParams s)
  | QSourceStats => GET "/api/sources/stats" []
  | QRuns => GET "/api/sources/runs" [("limit", "10")]
  | QActivity => GET "/api/posts/activity" [("hours", "24")]
  end.

(** The field a query writes. *)
Definition field_of (q : Query) (s : State) : json :=
  match q with
  | QPosts => posts s
  | QStats => stats s
  | QTrends => trends s
  | QSourceStats => sourceStats s
  | QRuns => runs s
  | QActivity => activityData s
  end.

(** The console message of a query's [catch]. *)
Definition failure_message (q : Query) : string :=
  match q with
  | QPosts => "Failed to fetch posts:"
  | QStats => "Failed to fetch stats:"
  | QTrends => "Failed to fetch trends:"
  | QSourceStats => "Failed to fetch source stats:"
  | QRuns => "Failed to fetch runs:"
  | QActivity => "Failed to fetch activity:"
  end.

(** A query fails when [fetch] rejects (network) or [res.json()] rejects
    (parse). *)
Definition fails (backend : Backend) (r : Request) : bool :=
  match backend r with
  | None | Some Unparsable => true
  | Some (Parsed _) => false
  end.



End Page.

(** ** The live-update channel *)

Module Channel.
Import Js Page.

Section Handlers.

Variable backend : Backend.
Variable toLocaleTimeString : Z -> string.

(** [JSON.parse(text)]: [None] is a [SyntaxError]. *)
Variable JSON_parse : string -> option json.

(** [setTimeout(cb, delay)] *)
Definition setTimeout (cb : Callback) (delay : Z) : M unit :=
  fun w =>
    mkRun (Normal tt)
          (mkWorld (store w) (clock w)
                   (timers w ++ [mkTimer (clock w + delay) cb])
                   (eventSources w))
          [].

(** [connectSSE()]: build an [EventSource] and hang the three handlers
    below on it. *)
Definition connectSSE : M unit :=
  fun w =>
    mkRun (Normal tt)
          (mkWorld (store w) (clock w) (timers w) (S (eventSources w)))
          [EventSourceOpened "/api/events"].

Definition onopen : M unit := write (with_sseConnected true).

Definition parse (text : string) : M json :=
  match JSON_parse text with
  | Some v => ret v
  | None => throw (SyntaxError "Unexpected token")
  end.

Definition read_event (v : json) : M (option json) :=
  match get_event v with
  | inl e => throw e
  | inr x => ret x
  end.

(** [es.onmessage], on a message whose [data] is [text]. *)
Definition onmessage (text : string) : M unit :=
  if String.eqb text "" then ret tt
  else
    try_catch
      (data <- parse text ;;
       ev <- read_event data ;;
       if strict_eq_str ev "scrape_complete"
       then spawn (fetchAll backend toLocaleTimeString)
       else ret tt)
      (fun _ => ret tt).

Definition onerror : M unit :=
  write (with_sseConnected false) ;;
  setTimeout Reconnect 5000.

Definition run_callback (cb : Callback) : M unit :=
  match cb with
  | Reconnect => connectSSE
  end.

(** What can happen to the page once the channel is up: an event on one
    of the [EventSource] objects, time passing, or a due timer firing. *)
Inductive Input : Type :=
| Open_ (es : nat)
| Message (es : nat) (text : string)
| Error_ (es : nat)
| Elapse (dt : Z)
| Fire (i : nat).

Definition drop_timer (i : nat) (w : World) : World :=
  mkWorld (store w) (clock w)
          (firstn i (timers w) ++ skipn (S i) (timers w))
          (eventSources w).

(** One turn of the event loop; [None] when the input cannot happen (an
    [EventSource] that was never built, time running backwards, a timer
    that is not there or not yet due). *)
Definition step (i : Input) (w : World) : option World :=
  match i with
  | Open_ es =>
      if (es <? eventSources w)%nat then Some (after (onopen w)) else None
  | Message es text =>
      if (es <? eventSources w)%nat then Some (after (onmessage text w)) else None
  | Error_ es =>
      if (es <? eventSources w)%nat then Some (after (onerror w)) else None
  | Elapse dt =>
      if 0 <=? dt
      then Some (mkWorld (store w) (clock w + dt) (timers w) (eventSources w))
      else None
  | Fire k =>
      match nth_error (timers w) k with
      | Some t =>
          if due t <=? clock w
          then Some (after (run_callback (callback t) (drop_timer k w)))
          else None
      | None => None
      end
  end.

Fixpoint steps (inputs : list Input) (w : World) : option World :=
  match inputs with
  | [] => Some w
  | i :: rest =>
      match step i w with
      | Some w' => steps rest w'
      | None => None
      end
  end.

(** The reconnect timers pending in [w]. *)
Definition pending (w : World) : nat := List.length (timers w).

End Handlers.

(** The page right after [init] has called [connectSSE] at time [t0]. *)
Definition connected_at (s : State) (t0 : Z) : World :=
  mkWorld s t0 [] 1.

End Channel.

(** ** The activity chart *)

Module Chart.
Import Js.

(** One row of [/api/posts/activity]. *)
Record ActivityRow : Type := mkRow {
  source : string;
  hour : string;
  count : Z
}.

Definition row_of_json (v : json) : option ActivityRow :=
  match v with
  | JObj fields =>
      match assoc "source" fields, assoc "hour" fields, assoc "count" fields with
      | Some (JStr s), Some (JStr h), Some (JNum c) => Some (mkRow s h c)
      | _, _, _ => None
      end
  | _ => None
  end.

(** The rows in [activityData], when it is an array of well-typed rows. *)
Definition rows_of_json (v : json) : option (list ActivityRow) :=
  match v with
  | JArr items => mapM row_of_json items
  | _ => None
  end.

(** *** Plain objects used as maps *)

(** The names every object literal inherits from [Object.prototype]. A
    read of [o[k]] on such a name finds the built-in, not a row. *)
Definition Object_prototype_names : list string :=
  ["constructor"; "hasOwnProperty"; "isPrototypeOf"; "propertyIsEnumerable";
   "toLocaleString"; "toString"; "valueOf"; "__proto__";
   "__defineGetter__"; "__defineSetter__"; "__lookupGetter__";
   "__lookupSetter__"].

Definition inherited (k : string) : bool :=
  existsb (String.eqb k) Object_prototype_names.

(** The rows on which [{}] is a map: no tag or hour shadows a built-in. *)
Definition plain_row (r : ActivityRow) : bool :=
  negb (inherited (source r)) && negb (inherited (hour r)).

(** [sources[src][hour] = count], after [if (!sources[src]) sources[src] = {}],
    for a tag [src] that [sources] does not inherit: an own property of
    [sources] is an object, hence truthy, and a missing one is undefined.
    The own properties of [sources] are kept in insertion order. *)
Fixpoint put (src hr : string) (c : Z) (sources : list (string * gmap string Z))
  : list (string * gmap string Z) :=
  match sources with
  | [] => [(src, <[hr := c]> ∅)]
  | (k, hourMap) :: rest =>
      if String.eqb k src then (k, <[hr := c]> hourMap) :: rest
      else (k, hourMap) :: put src hr c rest
  end.

(** One turn of the [for (const row of this.activityData)] loop. On a tag
    that [sources] inherits, [sources[row.source]] is the built-in, which is
    truthy: no own property is made, and the count is stored on the
    built-in, not in [sources]. *)
Definition visit (sources : list (string * gmap string Z)) (row : ActivityRow)
  : list (string * gmap string Z) :=
  if inherited (source row) then sources
  else put (source row) (hour row) (count row) sources.

(** The [for (const row of this.activityData)] loop. *)
Definition group_by_source (rows : list ActivityRow) : list (string * gmap string Z) :=
  fold_left visit rows [].

Definition is_digit (c : ascii) : bool :=
  ((48 <=? N_of_ascii c) && (N_of_ascii c <=? 57))%N.

(** A character of an ASCII identifier: a letter, a digit, [_] or [$]. *)
Definition identifier_char (c : ascii) : bool :=
  let n := N_of_ascii c in
  ((65 <=? n) && (n <=? 90) || (97 <=? n) && (n <=? 122))%N
  || is_digit c || (n =? 95)%N || (n =? 36)%N.

Fixpoint identifier_chars (s : string) : bool :=
  match s with
  | EmptyString => true
  | String c s' => identifier_char c && identifier_chars s'
  end.

(** An ASCII identifier, such as [keys], [length] or [__proto__]. *)
Definition identifier (k : string) : bool :=
  match k with
  | EmptyString => false
  | String c _ => negb (is_digit c) && identifier_chars k
  end.

(** A name that no built-in object has as a property. The properties of
    [Object], of the functions on [Object.prototype] and of
    [Function.prototype] are all named by ASCII identifiers; a name that
    is none (it is empty, starts with a digit, or holds a colon, a dash
    or the like) is free on each of them. *)
Definition unclaimed (k : string) : bool := negb (identifier k).

(** The rows the model follows. An hour that object literals inherit is
    left out: [hourMap[h]] would then answer with a built-in where the
    chart wants a number. A tag that they inherit is followed when it
    names a function ([constructor], [toString], ...) and the hour is
    [unclaimed], so that the count becomes a new property of that function
    and nothing the script reads afterwards is touched; the tag
    [__proto__] is left out, since the count would be stored on
    [Object.prototype] itself and be inherited by every object of the
    page. *)
Definition modelled (r : ActivityRow) : bool :=
  negb (inherited (hour r))
  && (negb (inherited (source r))
      || (negb (String.eqb (source r) "__proto__") && unclaimed (hour r))).

(** [[...new Set(xs)]]: the distinct values in order of first occurrence. *)
Definition Set_values (xs : list string) : list string :=
  fold_left (fun seen x => if existsb (String.eqb x) seen then seen else (seen ++ [x])%list)
            xs [].

(** The order of [Array.prototype.sort()] without a comparator: strings by
    code unit. The characters of the model are bytes; on ASCII strings a
    byte is a code unit and the two orders are one. *)
Definition str_le (a b : string) : Prop := String.leb a b = true.

#[global] Instance str_le_dec : RelDecision str_le.
Proof.
  intros a b. unfold str_le, Decision.
  destruct (String.leb a b); [left | right]; congruence.
Defined.

(** [[...new Set(activityData.map(r => r.hour))].sort()] *)
Definition allHours (rows : list ActivityRow) : list string :=
  merge_sort str_le (Set_values (map hour rows)).

(** The value of a string of decimal digits; [None] on any other string. *)
Fixpoint digits (s : string) (acc : N) : option N :=
  match s with
  | EmptyString => Some acc
  | String c s' =>
      let n := N_of_ascii c in
      if ((48 <=? n) && (n <=? 57))%N then digits s' (10 * acc + (n - 48))%N
      else None
  end.

(** The array index a property name denotes, if it is one: a canonical
    decimal below [2^32 - 1]. *)
Definition array_index (k : string) : option N :=
  match k with
  | EmptyString => None
  | String "0" EmptyString => Some 0%N
  | String "0" _ => None
  | _ =>
      match digits k 0 with
      | Some n => if (n <? 4294967295)%N then Some n else None
      | None => None
      end
  end.

Definition index_le {V : Type} (a b : N * (string * V)) : Prop := (fst a <= fst b)%N.

#[global] Instance index_le_dec {V : Type} : RelDecision (@index_le V).
Proof. intros a b. unfold index_le. apply N.le_dec. Defined.

(** [Object.entries(o)]: the array-index names first, ascending, then the
    other names in insertion order. *)
Definition Object_entries {V : Type} (o : list (string * V)) : list (string * V) :=
  map snd
      (merge_sort index_le
         (omap (fun kv => match array_index (fst kv) with
                          | Some n => Some (n, kv)
                          | None => None
                          end) o))
  ++ List.filter (fun kv => match array_index (fst kv) with
                            | Some _ => false
                            | None => true
                            end) o.

(** [c.toUpperCase()] on an ASCII character: the letters a to z move to
    A to Z and nothing else changes. Characters beyond ASCII are left as
    they are, which is not what the script does with them; statements
    about labels are made on ASCII tags. *)
Definition upper (c : ascii) : ascii :=
  let n := N_of_ascii c in
  if ((97 <=? n) && (n <=? 122))%N then ascii_of_N (n - 32) else c.

(** [src.charAt(0).toUpperCase() + src.slice(1)] *)
Definition capitalize (src : string) : string :=
  match src with
  | EmptyString => EmptyString
  | String c rest => String (upper c) rest
  end.

Definition colors : list (string * string) :=
  [("reddit", "#ff4500"); ("twitter", "#1d9bf0"); ("news", "#22c55e")].

(** [colors[src] || '#8b5cf6'] *)
Definition color_of (src : string) : string :=
  match assoc src colors with
  | Some c => c
  | None => "#8b5cf6"
  end.

(** [hourMap[h] || 0] *)
Definition or_zero (x : option Z) : Z :=
  match x with
  | Some c => if c =? 0 then 0 else c
  | None => 0
  end.

(** One entry of [datasets]; the constant styling options ([fill],
    [tension], [pointRadius], [borderWidth]) are left out. *)
Record Dataset : Type := mkDataset {
  label : string;
  data : list Z;
  borderColor : string;
  backgroundColor : string
}.

Definition dataset_of (hours : list string) (entry : string * gmap string Z) : Dataset :=
  let (src, hourMap) := entry in
  {| label := capitalize src;
     data := map (fun h => or_zero (hourMap !! h)) hours;
     borderColor := color_of src;
     backgroundColor := color_of src ++ "20" |}.

(** The [data] of the configuration handed to [new Chart]. *)
Record ChartData : Type := mkChartData {
  labels : list string;
  datasets : list Dataset
}.

Section Transformer.

(** [new Date(h + 'Z').toLocaleTimeString([], { hour: '2-digit',
    minute: '2-digit' })], the host's. *)
Variable formatHour : string -> string.

(** Lines 117 to 141 of [renderChart], on the rows the model follows;
    [None] off them, where the chart would hold a built-in in place of a
    number or [Object.prototype] would be written. *)
Definition chartData (rows : list ActivityRow) : option ChartData :=
  if forallb modelled rows
  then
    let sources := group_by_source rows in
    let hours := allHours rows in
    Some {| labels := map formatHour hours;
            datasets := map (dataset_of hours) (Object_entries sources) |}
  else None.

End Transformer.

(** The row of [src] at hour [h] that the grouping loop keeps: the last
    one, should there be several. *)
Definition row_at (rows : list ActivityRow) (src h : string) : option ActivityRow :=
  List.find (fun r => String.eqb (source r) src && String.eqb (hour r) h) (rev rows).

(** The count of [src] at hour [h] in the raw rows, zero without a row. *)
Definition count_at (rows : list ActivityRow) (src h : string) : Z :=
  match row_at rows src h with
  | Some r => count r
  | None => 0
  end.

(** *** The chart handle *)

(** A [Chart] object: what it was built from ([None] off the typed rows)
    and whether [destroy()] has been called on it. *)
Record ChartObject : Type := mkChart {
  config : option ChartData;
  destroyed : bool
}.

(** [window._activityChart], as an index into every [Chart] built so far. *)
Record Window : Type := mkWindow {
  _activityChart : option nat;
  charts : list ChartObject
}.

Definition fresh : Window := mkWindow None [].

Definition dispose (c : ChartObject) : ChartObject := mkChart (config c) true.

(** [if (window._activityChart) window._activityChart.destroy()] *)
Definition release (w : Window) : Window :=
  match _activityChart w with
  | Some i => mkWindow (_activityChart w) (alter dispose i (charts w))
  | None => w
  end.

(** [window._activityChart = new Chart(canvas, cfg)] *)
Definition construct (cfg : option ChartData) (w : Window) : Window :=
  mkWindow (Some (List.length (charts w))) (charts w ++ [mkChart cfg false]).

(** Whether lines 117 to 141 throw: [activityData] is no array (it cannot
    be iterated, or it is a string and has no [map]), or one of its
    elements is null ([row.source] on null). *)
Definition pivot_throws (activityData : json) : bool :=
  match activityData with
  | JArr items => existsb (fun v => match v with JNull => true | _ => false end) items
  | _ => true
  end.

Section Render.

Variable formatHour : string -> string.

(** [renderChart()], given whether the canvas is in the document. *)
Definition renderChart (canvas : bool) (activityData : json) (w : Window)
  : Page.Completion unit * Window :=
  if negb canvas then (Page.Normal tt, w)
  else
    let w := release w in
    if pivot_throws activityData
    then (Page.Abrupt (TypeError "activityData is not iterable"), w)
    else
      let cfg := rows_of_json activityData ≫= chartData formatHour in
      (Page.Normal tt, construct cfg w).

(** The windows a page can be in: any number of [renderChart] calls. *)
Inductive reachable : Window -> Prop :=
| reach_fresh : reachable fresh
| reach_render (canvas : bool) (activityData : json) (w : Window) :
    reachable w -> reachable (snd (renderChart canvas activityData w)).

End Render.

Definition live (c : ChartObject) : bool := negb (destroyed c).

(** The charts that were built and not destroyed. *)
Definition live_charts (w : Window) : list ChartObject := List.filter live (charts w).

End Chart.

(** ** Start-up *)

Module Lifecycle.
Import Js Page.

(** A timer of [setInterval]; its callback is always
    [() => this.fetchAll()]. *)
Record Interval : Type := mkInterval {
  period : Z
}.

(** What a call of [init] leaves: its run on the page, and the intervals
    it has registered. *)
Record Started : Type := mkStarted {
  run : Run unit;
  intervals : list Interval
}.

Section Init.

Variable backend : Backend.
Variable toLocaleTimeString : Z -> string.

(** [init()]: [await this.fetchAll(); this.connectSSE();
    setInterval(() => this.fetchAll(), 30000)]. *)
Definition init (w : World) : Started :=
  let r := (fetchAll backend toLocaleTimeString ;; Channel.connectSSE) w in
  mkStarted r
            (match outcome r with
             | Normal _ => [mkInterval 30000]
             | Abrupt _ => []
             end).

(** One firing of the interval: [this.fetchAll()], its promise dropped. *)
Definition tick : M unit := spawn (fetchAll backend toLocaleTimeString).

End Init.

End Lifecycle.

(** ** Template helpers *)

Module Helpers.
Import Js Page.

(** What [o[k] || d] can give on an object literal of colours: a colour,
    or the built-in that [k] names on [Object.prototype]. *)
Inductive Looked : Type :=
| Color (c : string)
| BuiltIn (name : string).

(** [sourceColor(src)] *)
Definition sourceColor (src : string) : Looked :=
  match assoc src [("twitter", "#1d9bf0"); ("reddit", "#ff4500"); ("news", "#22c55e")] with
  | Some c => Color c
  | None => if Chart.inherited src then BuiltIn src else Color "#8b5cf6"
  end.

(** Whether a JSON value is truthy. *)
Definition truthy (v : json) : bool :=
  match v with
  | JNull => false
  | JBool b => b
  | JNum n => negb (n =? 0)
  | JStr s => negb (String.eqb s "")
  | JArr _ | JObj _ => true
  end.

(** [Object.keys(v).length] on a JSON value that is not null: the fields
    of an object, the indices of an array or of a string; a number or a
    boolean has no keys. *)
Definition keys_length (v : json) : nat :=
  match v with
  | JObj fields => List.length fields
  | JArr items => List.length items
  | JStr s => String.length s
  | _ => 0%nat
  end.

(** [activeSources()]: [Object.keys(this.stats.per_source || {}).length].
    Reading [per_source] off a null [stats] throws. *)
Definition activeSources (s : State) : Exn + nat :=
  match stats s with
  | JNull => inl (TypeError "Cannot read properties of null")
  | JObj fields =>
      match assoc "per_source" fields with
      | Some v => inr (if truthy v then keys_length v else 0%nat)
      | None => inr 0%nat
      end
  | _ => inr 0%nat
  end.

End Helpers.

(* ===================================================================== *)
(** * Part II: the vocabulary of the statements                           *)
(* ===================================================================== *)

Import Js Page Chart.

(** ** Query construction *)

(** The parameter rule of the spec for one query: [name] is left out
    exactly when [value] is the sentinel [off], and carries [value]
    otherwise. *)
Definition attached_unless (off name value : string) (p : URLSearchParams) : Prop :=
  (params_get name p = None <-> value = off) /\
  (value <> off -> params_get name p = Some value).

(** C6 as the spec words it: the rule holds of [source] and of [search],
    for the post query and for the trend query alike. *)
Definition query_rule_as_stated (s : State) : Prop :=
  params_get "limit" (postsParams s) = Some "50" /\
  params_get "order" (postsParams s) = Some "desc" /\
  params_get "sort" (postsParams s) = Some "engagement_score" /\
  attached_unless "all" "source" (sourceFilter s) (postsParams s) /\
  attached_unless "" "search" (searchQuery s) (postsParams s) /\
  attached_unless "all" "source" (sourceFilter s) (trendsParams s) /\
  attached_unless "" "search" (searchQuery s) (trendsParams s).

(** A page on which a search text is typed and no source is selected. *)
Definition searching_all : State :=
  mkState "overview" "all" "rocq" (posts initial) (trends initial) (stats initial)
          (sourceStats initial) (runs initial) (activityData initial)
          false false None.

(** ** The orchestrated refresh *)

(** The queries in the order [fetchAll] lists them. *)
Definition all_queries : list Query :=
  [QPosts; QStats; QTrends; QSourceStats; QRuns; QActivity].

(** The write a query makes when its fetch succeeds. *)
Definition set_field (q : Query) (v : json) : State -> State :=
  match q with
  | QPosts => with_posts v
  | QStats => with_stats v
  | QTrends => with_trends v
  | QSourceStats => with_sourceStats v
  | QRuns => with_runs v
  | QActivity => with_activityData v
  end.

(** What a successful query emits after its request. *)
Definition follow_up (q : Query) : list Event :=
  match q with
  | QActivity => [NextTick_renderChart]
  | _ => []
  end.

(** What no query touches: the filters, the flags and the page around
    the store. *)
Definition same_frame (w w' : World) : Prop :=
  clock w' = clock w /\ timers w' = timers w /\
  eventSources w' = eventSources w /\
  sourceFilter (store w') = sourceFilter (store w) /\
  searchQuery (store w') = searchQuery (store w) /\
  loading (store w') = loading (store w) /\
  sseConnected (store w') = sseConnected (store w).

(** The six queries, run from the page with the loading flag raised. *)
Definition batch (backend : Backend) (w : World) : Run unit :=
  promise_all (map (run_query backend) all_queries)
              (with_store (with_loading true) w).

(** The frame a failing query [q] of a refresh started in [w] lives in:
    the filters of [w], and the field of [q] as [w] has it. *)
Definition undisturbed (q : Query) (w w' : World) : Prop :=
  sourceFilter (store w') = sourceFilter (store w) /\
  searchQuery (store w') = searchQuery (store w) /\
  field_of q (store w') = field_of q (store w).

(** ** The manual trigger *)

(** The request [triggerScrape(source)] sends. *)
Definition trigger_request (source : string) : Request :=
  POST ("/api/scraper/run/" ++ source).

(** C5 as the spec words it: the refresh is entered, whatever came of the
    trigger request. *)
Definition refresh_follows_trigger
  (backend : Backend) (toLocaleTimeString : Z -> string)
  (source : string) (w : World) : Prop :=
  In Entered_fetchAll (emitted (triggerScrape backend toLocaleTimeString source w)).

(** A backend no request reaches. *)
Definition offline : Backend := fun _ => None.

(** The page as [dashboard()] returns it, before [init]. *)
Definition page0 : World := mkWorld initial 0 [] 0.

(** ** The live-update channel *)

(** The value [JSON.parse] gave is an object whose [event] is the string
    ["scrape_complete"]. *)
Definition carries_tag (parsed : option json) : bool :=
  match parsed with
  | Some (JObj fields) => strict_eq_str (assoc "event" fields) "scrape_complete"
  | _ => false
  end.

(** The payloads that ask for a refresh. *)
Definition refresh_signal (JSON_parse : string -> option json) (text : string) : bool :=
  negb (String.eqb text "") && carries_tag (JSON_parse text).

(** The error events among some inputs. *)
Fixpoint errors (inputs : list Channel.Input) : nat :=
  match inputs with
  | [] => 0%nat
  | Channel.Error_ _ :: rest => S (errors rest)
  | _ :: rest => errors rest
  end.

(** C4 as the spec words it, for one run of the page from the moment the
    channel is first opened: never two reconnect timers at once. *)
Definition one_timer_at_most
  (backend : Backend) (toLocaleTimeString : Z -> string)
  (JSON_parse : string -> option json)
  (s : State) (t0 : Z) (inputs : list Channel.Input) : Prop :=
  forall w, Channel.steps backend toLocaleTimeString JSON_parse inputs
              (Channel.connected_at s t0) = Some w ->
            (Channel.pending w <= 1)%nat.

(** What a run from the first [connectSSE] keeps true: every error has
    its one reconnection, pending or done; no timer is due more than the
    delay ahead; the clock has not gone back. *)
Definition accounted (t0 : Z) (n : nat) (w : World) : Prop :=
  (eventSources w + Channel.pending w)%nat = S n /\
  Forall (fun t => due t <= clock w + 5000) (timers w) /\
  t0 <= clock w.

(** A page five seconds after an error on its only channel. *)
Definition awaiting_reconnect : World :=
  mkWorld (with_sseConnected false initial) 5000 [mkTimer 5000 Reconnect] 1.

(** ** The chart *)

(** Every chart that is still live is the one the handle holds, and the
    handle holds a chart that was built. *)
Definition tidy (w : Window) : Prop :=
  (forall i c, charts w !! i = Some c -> live c = true -> _activityChart w = Some i) /\
  (forall i, _activityChart w = Some i -> is_Some (charts w !! i)).

(** Strictly before, in the order [sort()] uses. *)
Definition str_lt (a b : string) : Prop := String.ltb a b = true.

(** The row is one of [src] at hour [h]. *)
Definition matching (src h : string) (r : ActivityRow) : bool :=
  String.eqb (source r) src && String.eqb (hour r) h.

(** What the loop has built after the rows seen so far. *)
Definition grouped (rows : list ActivityRow) (sources : list (string * gmap string Z)) : Prop :=
  NoDup (map fst sources) /\
  (forall k, In k (map fst sources) <-> exists r, In r rows /\ source r = k) /\
  (forall k hourMap, assoc k sources = Some hourMap ->
     forall h, hourMap !! h = count <$> row_at rows k h).

(** The rows of the spec's end-to-end scenario. *)
Definition scenario : list ActivityRow :=
  [mkRow "reddit" "10:00" 5; mkRow "reddit" "11:00" 3; mkRow "news" "11:00" 2].

(** A string of ASCII characters: each byte of the model is then one code
    unit of the script's string. *)
Fixpoint ascii_only (s : string) : bool :=
  match s with
  | EmptyString => true
  | String c s' => (N_of_ascii c <? 128)%N && ascii_only s'
  end.




(** ** Traces of a refresh *)

(** The requests among some events, in order. *)
Fixpoint requests (evs : list Event) : list Request :=
  match evs with
  | [] => []
  | Fetched r :: evs' => r :: requests evs'
  | _ :: evs' => requests evs'
  end.

(** How many console errors there are among some events. *)
Fixpoint logged (evs : list Event) : nat :=
  match evs with
  | [] => 0%nat
  | ConsoleError _ _ :: evs' => S (logged evs')
  | _ :: evs' => logged evs'
  end.

(** How many chart renderings were scheduled among some events. *)
Fixpoint renders (evs : list Event) : nat :=
  match evs with
  | [] => 0%nat
  | NextTick_renderChart :: evs' => S (renders evs')
  | _ :: evs' => renders evs'
  end.

(** What query [q] emits when it is sent from filters as in [s]. *)
Definition events_of (backend : Backend) (q : Query) (s : State) : list Event :=
  match backend (request_of q s) with
  | Some (Parsed _) => Fetched (request_of q s) :: follow_up q
  | Some Unparsable =>
      [Fetched (request_of q s);
       ConsoleError (failure_message q) (SyntaxError "Unexpected token")]
  | None =>
      [Fetched (request_of q s);
       ConsoleError (failure_message q) (TypeError "Failed to fetch")]
  end.

(** What query [q], sent from filters as in [s0], does to the state. *)
Definition settle (backend : Backend) (s0 : State) (q : Query) (s : State) : State :=
  match backend (request_of q s0) with
  | Some (Parsed v) => set_field q v s
  | _ => s
  end.

(** The queries of the refresh that the backend fails, seen from [s]. *)
Definition failing (backend : Backend) (s : State) : list Query :=
  List.filter (fun q => fails backend (request_of q s)) all_queries.

(** A backend that answers every request with the JSON value null. *)
Definition answering_null : Backend := fun _ => Some (Parsed JNull).

(** ** Runs of the channel *)

(** The connectivity flag after some inputs: the last open or error
    event decides. *)
Fixpoint connected_after (inputs : list Channel.Input) (b : bool) : bool :=
  match inputs with
  | [] => b
  | Channel.Open_ _ :: rest => connected_after rest true
  | Channel.Error_ _ :: rest => connected_after rest false
  | _ :: rest => connected_after rest b
  end.

(** The timers fired among some inputs. *)
Fixpoint fires (inputs : list Channel.Input) : nat :=
  match inputs with
  | [] => 0%nat
  | Channel.Fire _ :: rest => S (fires rest)
  | _ :: rest => fires rest
  end.

(** ** Clocks *)

(** A time value of [Date]: at most 8.64e15 milliseconds from the epoch. *)
Definition time_value (t : Z) : Prop :=
  - 8640000000000000 <= t <= 8640000000000000.

(** The difference of the two clocks is a safe integer, so the script
    computes it without rounding. *)
Definition exact_difference (now t : Z) : Prop :=
  - 2 ^ 53 <= now - t <= 2 ^ 53.

(** ** Counts *)

(** [p] holds of the [n] integers from [lo] on. *)
Fixpoint all_from (p : Z -> bool) (lo : Z) (n : nat) : bool :=
  match n with
  | O => true
  | S n' => p lo && all_from p (lo + 1) n'
  end.

(** [n] takes the thousands branch of [formatNumber], and the tenths it
    shows there are within 50 of [n]. *)
Definition thousands_ok (n : Z) : bool :=
  let x := Js.toNumber n in
  negb (PrimFloat.leb (Js.toNumber 1000000) x)
  && PrimFloat.leb (Js.toNumber 1000) x
  && match Prim2SF (PrimFloat.div x (Js.toNumber 1000)) with
     | S754_finite false m e => Z.abs (100 * Js.tenths m e - n) <=? 50
     | _ => false
     end.

(** [n] is printed by [formatNumber] as [String(n)]. *)
Definition plain_ok (n : Z) : bool :=
  String.eqb (Formatters.formatNumber n) (Js.show n).

(** ** Totals of the chart *)

(** The sum of some counts. *)
Definition total (l : list Z) : Z := fold_right Z.add 0 l.

(** What identifies a row: its source and its hour. *)
Definition row_key (r : ActivityRow) : string * string := (source r, hour r).

(* ===================================================================== *)
(** * Part III: the properties                                            *)
(* ===================================================================== *)

(** ** Formatters *)

(** C9. The count formatter prints 999 as it is, 1000 as "1.0K" and
    1000000 as "1.0M"; the elapsed-time formatter prints "just now" for any
    timestamp less than one minute old and "1h ago" for one that is exactly
    sixty minutes old. *)
Theorem formatting_boundaries
  (Date_parse : string -> option Z) (now t : Z) (s : string) :
  s <> "" ->
  Date_parse s = Some t ->
  Formatters.formatNumber 999 = "999" /\
  Formatters.formatNumber 1000 = "1.0K" /\
  Formatters.formatNumber 1000000 = "1.0M" /\
  (now - t < 60000 ->
   Formatters.timeAgo Date_parse now (Formatters.Str s) = "just now") /\
  (now - t = 3600000 ->
   Formatters.timeAgo Date_parse now (Formatters.Str s) = "1h ago").
Proof.
  intros Hs Ht.
  assert (Hne : String.eqb s "" = false) by (apply String.eqb_neq; exact Hs).
  split; [vm_compute; reflexivity |].
  split; [vm_compute; reflexivity |].
  split; [vm_compute; reflexivity |].
  split.
  - intros Hlt. unfold Formatters.timeAgo. cbn [Formatters.absent].
    rewrite Hne, Ht. cbv zeta.
    assert (Hm : (now - t) / 60000 < 1) by (apply Z.div_lt_upper_bound; lia).
    apply Z.ltb_lt in Hm. rewrite Hm. reflexivity.
  - intros Heq. unfold Formatters.timeAgo. cbn [Formatters.absent].
    rewrite Hne, Ht, Heq. reflexivity.
Qed.

Lemma formatting_boundaries_witness :
  Formatters.timeAgo (fun _ => Some 1700000000000) 1700000030000
    (Formatters.Str "2023-11-14T22:13:20") = "just now" /\
  Formatters.timeAgo (fun _ => Some 1700000000000) 1700003600000
    (Formatters.Str "2023-11-14T22:13:20") = "1h ago".
Proof.
  split.
  - apply (formatting_boundaries (fun _ => Some 1700000000000)
             1700000030000 1700000000000 "2023-11-14T22:13:20");
      [discriminate | reflexivity | lia].
  - apply (formatting_boundaries (fun _ => Some 1700000000000)
             1700003600000 1700000000000 "2023-11-14T22:13:20");
      [discriminate | reflexivity | lia].
Defined.

(** C10. On an absent timestamp (undefined, null or the empty string)
    [timeAgo] answers "N/A", whatever the clock shows and whatever the date
    parser would say: no elapsed time enters the answer. *)
Theorem timeAgo_absent (Date_parse : string -> option Z) (now : Z) :
  Formatters.timeAgo Date_parse now Formatters.Undefined = "N/A" /\
  Formatters.timeAgo Date_parse now Formatters.Null = "N/A" /\
  Formatters.timeAgo Date_parse now (Formatters.Str "") = "N/A".
Proof. repeat split. Qed.

(** ** Query construction *)

(** With a search text typed in, the trend query still carries no
    [search] parameter: the rule as stated fails. *)
Lemma trend_query_ignores_search : ~ query_rule_as_stated searching_all.
Proof.
  intros (_ & _ & _ & _ & _ & _ & [Hiff _]).
  assert (H : searchQuery searching_all = "") by (apply Hiff; reflexivity).
  discriminate H.
Qed.

Lemma fetchPosts_request (backend : Backend) (w : World) :
  exists rest, emitted (fetchPosts backend w)
               = Fetched (GET "/api/posts" (postsParams (store w))) :: rest.
Proof.
  unfold fetchPosts, try_catch, bind, fetch, read, emit. cbn.
  destruct (backend _) as [[|v]|]; cbn; eexists; reflexivity.
Qed.

Lemma fetchTrends_request (backend : Backend) (w : World) :
  exists rest, emitted (fetchTrends backend w)
               = Fetched (GET "/api/trends" (trendsParams (store w))) :: rest.
Proof.
  unfold fetchTrends, try_catch, bind, fetch, read, emit. cbn.
  destruct (backend _) as [[|v]|]; cbn; eexists; reflexivity.
Qed.

Lemma params_rule (s : State) :
  params_get "limit" (postsParams s) = Some "50" /\
  params_get "order" (postsParams s) = Some "desc" /\
  params_get "sort" (postsParams s) = Some "engagement_score" /\
  attached_unless "all" "source" (sourceFilter s) (postsParams s) /\
  attached_unless "" "search" (searchQuery s) (postsParams s) /\
  params_get "limit" (trendsParams s) = Some "15" /\
  attached_unless "all" "source" (sourceFilter s) (trendsParams s) /\
  params_get "search" (trendsParams s) = None.
Proof.
  unfold attached_unless, postsParams, trendsParams.
  destruct (String.eqb_spec (sourceFilter s) "all") as [Hsf | Hsf];
    destruct (String.eqb_spec (searchQuery s) "") as [Hsq | Hsq];
    cbn;
    repeat split; intros;
    try reflexivity; try congruence; try discriminate; try contradiction.
Qed.

(** C6, amended. The post query asks for 50 posts in descending order of
    engagement score and follows the rule for both [source] and [search];
    the trend query asks for the top 15 and follows it for [source]; the
    trend query never carries a [search] parameter. These are the
    parameters [fetchPosts] and [fetchTrends] put on the wire. *)
Theorem query_parameters (backend : Backend) (w : World) :
  let s := store w in
  params_get "limit" (postsParams s) = Some "50" /\
  params_get "order" (postsParams s) = Some "desc" /\
  params_get "sort" (postsParams s) = Some "engagement_score" /\
  attached_unless "all" "source" (sourceFilter s) (postsParams s) /\
  attached_unless "" "search" (searchQuery s) (postsParams s) /\
  params_get "limit" (trendsParams s) = Some "15" /\
  attached_unless "all" "source" (sourceFilter s) (trendsParams s) /\
  params_get "search" (trendsParams s) = None /\
  (exists rest, emitted (fetchPosts backend w)
                = Fetched (GET "/api/posts" (postsParams s)) :: rest) /\
  (exists rest, emitted (fetchTrends backend w)
                = Fetched (GET "/api/trends" (trendsParams s)) :: rest).
Proof.
  intros s.
  destruct (params_rule s) as (H1 & H2 & H3 & H4 & H5 & H6 & H7 & H8).
  split_and!; try assumption.
  - apply fetchPosts_request.
  - apply fetchTrends_request.
Qed.

(** ** The orchestrated refresh *)

Section Refresh.

Variable backend : Backend.
Variable toLocaleTimeString : Z -> string.

(** Every run of a query, by the three replies the backend can give. *)
Lemma run_query_cases (q : Query) (w : World) :
  run_query backend q w =
  match backend (request_of q (store w)) with
  | Some (Parsed v) =>
      mkRun (Normal tt) (with_store (set_field q v) w)
            (Fetched (request_of q (store w)) :: follow_up q)
  | Some Unparsable =>
      mkRun (Normal tt) w
            [Fetched (request_of q (store w));
             ConsoleError (failure_message q) (SyntaxError "Unexpected token")]
  | None =>
      mkRun (Normal tt) w
            [Fetched (request_of q (store w));
             ConsoleError (failure_message q) (TypeError "Failed to fetch")]
  end.
Proof.
  destruct q; cbn;
    unfold fetchPosts, fetchStats, fetchTrends, fetchSourceStats, fetchRuns,
      fetchActivity, try_catch, bind, fetch, read, emit; cbn;
    destruct (backend _) as [[|v]|]; reflexivity.
Qed.

Lemma run_query_normal (q : Query) (w : World) :
  outcome (run_query backend q w) = Normal tt.
Proof.
  rewrite run_query_cases. destruct (backend _) as [[|v]|]; reflexivity.
Qed.


Lemma same_frame_refl (w : World) : same_frame w w.
Proof. repeat split. Qed.

Lemma same_frame_trans (w1 w2 w3 : World) :
  same_frame w1 w2 -> same_frame w2 w3 -> same_frame w1 w3.
Proof.
  unfold same_frame. intros (?&?&?&?&?&?&?) (?&?&?&?&?&?&?).
  repeat split; congruence.
Qed.

Lemma run_query_frame (q : Query) (w : World) :
  same_frame w (after (run_query backend q w)).
Proof.
  rewrite run_query_cases.
  destruct (backend _) as [[|v]|]; try apply same_frame_refl.
  destruct q; repeat split.
Qed.

Lemma request_of_frame (q : Query) (w w' : World) :
  same_frame w w' -> request_of q (store w') = request_of q (store w).
Proof.
  intros (_&_&_&Hsf&Hsq&_).
  destruct q; cbn; unfold postsParams, trendsParams; rewrite ?Hsf, ?Hsq; reflexivity.
Qed.

Lemma set_field_other (q q' : Query) (v : json) (s : State) :
  q <> q' -> field_of q (set_field q' v s) = field_of q s.
Proof. destruct q, q'; intros H; try reflexivity; contradiction. Qed.

(** *** [Promise.all] over methods that settle *)

Lemma promise_all_cons (m : M unit) (ps : list (M unit)) (w : World) :
  outcome (promise_all (m :: ps) w)
  = match outcome (m w) with
    | Normal _ => outcome (promise_all ps (after (m w)))
    | Abrupt e => Abrupt e
    end /\
  after (promise_all (m :: ps) w) = after (promise_all ps (after (m w))) /\
  emitted (promise_all (m :: ps) w)
  = (emitted (m w) ++ emitted (promise_all ps (after (m w))))%list.
Proof.
  cbn [promise_all]. destruct (m w) as [o w1 ev]. cbn [outcome after emitted].
  destruct (promise_all ps w1) as [o' w2 ev']. repeat split.
Qed.

Lemma promise_all_normal (ps : list (M unit)) :
  Forall (fun m : M unit => forall w, outcome (m w) = Normal tt) ps ->
  forall w, outcome (promise_all ps w) = Normal tt.
Proof.
  induction 1 as [| m ps Hm _ IH]; intros w; [reflexivity |].
  destruct (promise_all_cons m ps w) as (-> & _). rewrite Hm. apply IH.
Qed.

Lemma promise_all_inv (P : World -> Prop) (ps : list (M unit)) :
  Forall (fun m : M unit => forall w, P w -> P (after (m w))) ps ->
  forall w, P w -> P (after (promise_all ps w)).
Proof.
  induction 1 as [| m ps Hm _ IH]; intros w Hw; [exact Hw |].
  destruct (promise_all_cons m ps w) as (_ & -> & _).
  apply IH, Hm, Hw.
Qed.

Lemma promise_all_emitted (P : World -> Prop) (ps : list (M unit)) :
  Forall (fun m : M unit => forall w, P w -> P (after (m w))) ps ->
  forall w, P w ->
  forall m, In m ps ->
  exists w', P w' /\ incl (emitted (m w')) (emitted (promise_all ps w)).
Proof.
  induction 1 as [| m0 ps Hm0 _ IH]; intros w Hw m Hin; [destruct Hin |].
  destruct (promise_all_cons m0 ps w) as (_ & _ & ->).
  destruct Hin as [<- | Hin].
  - exists w. split; [exact Hw |]. apply incl_appl, incl_refl.
  - destruct (IH (after (m0 w)) (Hm0 w Hw) m Hin) as (w' & Hw' & Hincl).
    exists w'. split; [exact Hw' |]. apply incl_appr, Hincl.
Qed.



(** *** [fetchAll] *)

Lemma batch_normal (w : World) : outcome (batch backend w) = Normal tt.
Proof.
  unfold batch.
  apply promise_all_normal. apply List.Forall_forall. intros m Hin.
  apply in_map_iff in Hin as (q & <- & _). apply run_query_normal.
Qed.

Lemma fetchAll_run (w : World) :
  fetchAll backend toLocaleTimeString w =
  mkRun (Normal tt)
        (with_store (with_lastUpdate
                       (Some (toLocaleTimeString (clock (after (batch backend w))))))
           (with_store (with_loading false) (after (batch backend w))))
        (Entered_fetchAll :: LoadingSet true
           :: (emitted (batch backend w) ++ [LoadingSet false])%list).
Proof.
  pose proof (batch_normal w) as Hn. revert Hn.
  unfold batch, all_queries. cbn [map run_query].
  unfold fetchAll, set_loading, bind, emit, write.
  destruct (promise_all _ _) as [o w1 ev]. cbn [outcome after emitted].
  intros ->. reflexivity.
Qed.

Lemma fetchAll_outcome (w : World) :
  outcome (fetchAll backend toLocaleTimeString w) = Normal tt.
Proof. rewrite fetchAll_run. reflexivity. Qed.

Lemma fetchAll_after (w : World) :
  after (fetchAll backend toLocaleTimeString w)
  = with_store (with_lastUpdate
                  (Some (toLocaleTimeString (clock (after (batch backend w))))))
      (with_store (with_loading false) (after (batch backend w))).
Proof. rewrite fetchAll_run. reflexivity. Qed.

Lemma fetchAll_emitted (w : World) :
  emitted (fetchAll backend toLocaleTimeString w)
  = Entered_fetchAll :: LoadingSet true
      :: (emitted (batch backend w) ++ [LoadingSet false])%list.
Proof. rewrite fetchAll_run. reflexivity. Qed.

Lemma batch_inv (P : World -> Prop) :
  (forall q w', P w' -> P (after (run_query backend q w'))) ->
  forall w, P (with_store (with_loading true) w) -> P (after (batch backend w)).
Proof.
  intros Hpres w Hw. unfold batch. apply promise_all_inv; [| exact Hw].
  apply List.Forall_forall. intros m Hin w' Hw'.
  apply in_map_iff in Hin as (q & <- & _). apply Hpres, Hw'.
Qed.

Lemma batch_emitted (P : World -> Prop) :
  (forall q w', P w' -> P (after (run_query backend q w'))) ->
  forall w, P (with_store (with_loading true) w) ->
  forall q, exists w',
    P w' /\ incl (emitted (run_query backend q w')) (emitted (batch backend w)).
Proof.
  intros Hpres w Hw q. unfold batch.
  apply (promise_all_emitted P); [| exact Hw |].
  - apply List.Forall_forall. intros m Hin w' Hw'.
    apply in_map_iff in Hin as (q' & <- & _). apply Hpres, Hw'.
  - apply in_map. destruct q; cbn; tauto.
Qed.


Lemma batch_frame (w : World) :
  same_frame (with_store (with_loading true) w) (after (batch backend w)).
Proof.
  apply (batch_inv (same_frame (with_store (with_loading true) w)));
    [| apply same_frame_refl].
  intros q w' Hw'.
  eapply same_frame_trans; [exact Hw' | apply run_query_frame].
Qed.


Lemma undisturbed_request (q : Query) (w w' : World) :
  undisturbed q w w' -> request_of q (store w') = request_of q (store w).
Proof.
  intros (Hsf & Hsq & _).
  destruct q; cbn; unfold postsParams, trendsParams; rewrite ?Hsf, ?Hsq;
    reflexivity.
Qed.

Lemma failing_query_run (q : Query) (w w' : World) :
  fails backend (request_of q (store w)) = true ->
  undisturbed q w w' ->
  after (run_query backend q w') = w' /\
  exists e, emitted (run_query backend q w')
            = [Fetched (request_of q (store w));
               ConsoleError (failure_message q) e].
Proof.
  intros Hfail Hu. rewrite run_query_cases.
  rewrite (undisturbed_request q w w' Hu).
  unfold fails in Hfail.
  destruct (backend (request_of q (store w))) as [[|v]|];
    try discriminate; split; try reflexivity; eexists; reflexivity.
Qed.

Lemma undisturbed_preserved (q q' : Query) (w w' : World) :
  fails backend (request_of q (store w)) = true ->
  undisturbed q w w' ->
  undisturbed q w (after (run_query backend q' w')).
Proof.
  intros Hfail Hu.
  destruct (decide (q' = q)) as [-> | Hne].
  - destruct (failing_query_run q w w' Hfail Hu) as (-> & _). exact Hu.
  - destruct Hu as (Hsf & Hsq & Hf).
    destruct (run_query_frame q' w') as (_ & _ & _ & Hsf' & Hsq' & _).
    split; [congruence |]. split; [congruence |].
    rewrite <- Hf. rewrite run_query_cases.
    destruct (backend (request_of q' (store w'))) as [[|v]|]; try reflexivity.
    cbn [after store with_store]. apply set_field_other. congruence.
Qed.

(** C1. When the backend fails a query of the refresh (the fetch rejects
    or the body does not parse), the method of that query returns
    normally, leaves the whole page as it was and emits its request and
    one console error; and after the [fetchAll] that issued it the field
    of that query holds what it held before, the error is on the console
    and [fetchAll] has returned normally. *)
Theorem failed_query_keeps_field (q : Query) (w : World) :
  fails backend (request_of q (store w)) = true ->
  outcome (run_query backend q w) = Normal tt /\
  after (run_query backend q w) = w /\
  (exists e, emitted (run_query backend q w)
             = [Fetched (request_of q (store w)); ConsoleError (failure_message q) e]) /\
  outcome (fetchAll backend toLocaleTimeString w) = Normal tt /\
  field_of q (store (after (fetchAll backend toLocaleTimeString w)))
  = field_of q (store w) /\
  (exists e, In (ConsoleError (failure_message q) e)
                (emitted (fetchAll backend toLocaleTimeString w))).
Proof.
  intros Hfail.
  assert (Hrefl : undisturbed q w w) by (repeat split).
  destruct (failing_query_run q w w Hfail Hrefl) as (Hafter & Hem).
  split; [apply run_query_normal |].
  split; [exact Hafter |]. split; [exact Hem |].
  split; [apply fetchAll_outcome |].
  assert (Hstart : undisturbed q w (with_store (with_loading true) w)).
  { destruct w as [s c t n]. split; [reflexivity |]. split; [reflexivity |].
    destruct q; reflexivity. }
  assert (Hpres : forall q' w', undisturbed q w w' ->
                    undisturbed q w (after (run_query backend q' w'))).
  { intros q' w' Hu. apply undisturbed_preserved; assumption. }
  split.
  - rewrite fetchAll_after.
    destruct (batch_inv (undisturbed q w) Hpres w Hstart) as (_ & _ & Hf).
    rewrite <- Hf. destruct q; reflexivity.
  - destruct (batch_emitted (undisturbed q w) Hpres w Hstart q) as (w' & Hu & Hincl).
    destruct (failing_query_run q w w' Hfail Hu) as (_ & e & Hem').
    exists e. rewrite fetchAll_emitted.
    right. right. apply in_or_app. left.
    apply (Hincl (ConsoleError (failure_message q) e)).
    rewrite Hem'. right. left. reflexivity.
Qed.

End Refresh.

Lemma failed_query_keeps_field_witness :
  field_of QStats (store (after (fetchAll offline (fun _ => "12:00:00") page0)))
  = field_of QStats (store page0) /\
  exists e, In (ConsoleError "Failed to fetch stats:" e)
               (emitted (fetchAll offline (fun _ => "12:00:00") page0)).
Proof.
  destruct (failed_query_keeps_field offline (fun _ => "12:00:00") QStats page0 eq_refl)
    as (_ & _ & _ & _ & Hfield & Hlog).
  split; [exact Hfield | exact Hlog].
Defined.

(** ** The manual trigger *)

(** With the backend unreachable the trigger request rejects, the [catch]
    logs it, and [fetchAll], which sits inside the same [try], is skipped. *)
Lemma failed_trigger_skips_refresh :
  ~ refresh_follows_trigger offline (fun _ => "12:00:00") "reddit" page0.
Proof.
  unfold refresh_follows_trigger. cbn.
  intros [H | [H | []]]; discriminate H.
Qed.

Section Trigger.

Variable backend : Backend.
Variable toLocaleTimeString : Z -> string.

#[local] Arguments fetchAll : simpl never.

Lemma triggerScrape_cases (source : string) (w : World) :
  triggerScrape backend toLocaleTimeString source w =
  match backend (trigger_request source) with
  | Some (Parsed _) =>
      mkRun (Normal tt)
            (after (fetchAll backend toLocaleTimeString w))
            (Fetched (trigger_request source)
               :: emitted (fetchAll backend toLocaleTimeString w))
  | Some Unparsable =>
      mkRun (Normal tt) w
            [Fetched (trigger_request source);
             ConsoleError "Failed to trigger scrape:" (SyntaxError "Unexpected token")]
  | None =>
      mkRun (Normal tt) w
            [Fetched (trigger_request source);
             ConsoleError "Failed to trigger scrape:" (TypeError "Failed to fetch")]
  end.
Proof.
  unfold triggerScrape, try_catch, fetch, trigger_request, bind, emit.
  destruct (backend _) as [[|v]|]; cbn [json_of ret throw app]; try reflexivity.
  rewrite fetchAll_run. reflexivity.
Qed.

(** C5, amended. [triggerScrape] never throws. When the trigger request
    succeeds (the fetch resolves and its body parses) it goes on to run
    [fetchAll]; when the request fails it logs the failure, leaves the
    page as it was and does not run [fetchAll]. So the refresh is entered
    exactly when the trigger request succeeded. *)
Theorem triggerScrape_refreshes_on_success (source : string) (w : World) :
  outcome (triggerScrape backend toLocaleTimeString source w) = Normal tt /\
  (if fails backend (trigger_request source)
   then after (triggerScrape backend toLocaleTimeString source w) = w /\
        exists e, emitted (triggerScrape backend toLocaleTimeString source w)
                  = [Fetched (trigger_request source);
                     ConsoleError "Failed to trigger scrape:" e]
   else after (triggerScrape backend toLocaleTimeString source w)
        = after (fetchAll backend toLocaleTimeString w) /\
        emitted (triggerScrape backend toLocaleTimeString source w)
        = Fetched (trigger_request source)
            :: emitted (fetchAll backend toLocaleTimeString w)) /\
  (In Entered_fetchAll (emitted (triggerScrape backend toLocaleTimeString source w))
   <-> fails backend (trigger_request source) = false).
Proof.
  rewrite triggerScrape_cases. unfold fails.
  destruct (backend (trigger_request source)) as [[|v]|]; cbn [outcome after emitted].
  - split; [reflexivity |]. split; [split; [reflexivity | eexists; reflexivity] |].
    split; [| discriminate]. intros [H | [H | []]]; discriminate H.
  - split; [reflexivity |]. split; [split; reflexivity |].
    split; [reflexivity |]. intros _. right. rewrite fetchAll_emitted. left. reflexivity.
  - split; [reflexivity |]. split; [split; [reflexivity | eexists; reflexivity] |].
    split; [| discriminate]. intros [H | [H | []]]; discriminate H.
Qed.

End Trigger.

(** ** The live-update channel *)

Section Messages.

Variable backend : Backend.
Variable toLocaleTimeString : Z -> string.
Variable JSON_parse : string -> option json.

#[local] Arguments fetchAll : simpl never.

Lemma refresh_signal_spec (text : string) :
  refresh_signal JSON_parse text = true <->
  text <> "" /\
  exists fields, JSON_parse text = Some (JObj fields) /\
                 assoc "event" fields = Some (JStr "scrape_complete").
Proof.
  unfold refresh_signal, carries_tag, strict_eq_str.
  destruct (String.eqb_spec text "") as [-> | Hne]; cbn.
  - split; [discriminate | intros [H _]; contradiction].
  - split.
    + intros H. split; [exact Hne |].
      destruct (JSON_parse text) as [[| | | | | fields]|]; try discriminate.
      exists fields. split; [reflexivity |].
      destruct (assoc "event" fields) as [[| | |s| |]|]; try discriminate.
      apply String.eqb_eq in H. subst s. reflexivity.
    + intros (_ & fields & -> & ->). reflexivity.
Qed.

Lemma onmessage_cases (text : string) (w : World) :
  Channel.onmessage backend toLocaleTimeString JSON_parse text w =
  if refresh_signal JSON_parse text
  then mkRun (Normal tt)
             (after (fetchAll backend toLocaleTimeString w))
             (emitted (fetchAll backend toLocaleTimeString w))
  else mkRun (Normal tt) w [].
Proof.
  unfold Channel.onmessage, refresh_signal.
  destruct (String.eqb text ""); [reflexivity |].
  unfold try_catch, Channel.parse, Channel.read_event, bind, carries_tag.
  destruct (JSON_parse text) as [[| | | | | fields]|];
    cbn [negb andb ret throw get_event app]; try reflexivity.
  destruct (strict_eq_str (assoc "event" fields) "scrape_complete");
    cbn [andb ret spawn app]; [| reflexivity].
  unfold spawn. rewrite fetchAll_run. reflexivity.
Qed.

(** C7. A message on the push channel starts the refresh if and only if
    its payload is not empty, parses as a JSON object and that object's
    [event] is ["scrape_complete"]. Every other message (an empty payload,
    one that does not parse, a value that is no object, another or no
    tag) changes nothing and logs nothing, and the handler never throws. *)
Theorem onmessage_refreshes_iff_scrape_complete (text : string) (w : World) :
  outcome (Channel.onmessage backend toLocaleTimeString JSON_parse text w) = Normal tt /\
  (In Entered_fetchAll
      (emitted (Channel.onmessage backend toLocaleTimeString JSON_parse text w))
   <-> text <> "" /\
       exists fields, JSON_parse text = Some (JObj fields) /\
                      assoc "event" fields = Some (JStr "scrape_complete")) /\
  Channel.onmessage backend toLocaleTimeString JSON_parse text w
  = (if refresh_signal JSON_parse text
     then mkRun (Normal tt)
                (after (fetchAll backend toLocaleTimeString w))
                (emitted (fetchAll backend toLocaleTimeString w))
     else mkRun (Normal tt) w []).
Proof.
  rewrite <- refresh_signal_spec. rewrite onmessage_cases.
  destruct (refresh_signal JSON_parse text); cbn [outcome after emitted].
  - split; [reflexivity |]. split; [| reflexivity].
    split; [reflexivity |]. intros _. rewrite fetchAll_emitted. left. reflexivity.
  - split; [reflexivity |]. split; [| reflexivity].
    split; [intros [] | discriminate].
Qed.

End Messages.

(** *** Reconnection *)

Section Reconnect.

Variable backend : Backend.
Variable toLocaleTimeString : Z -> string.
Variable JSON_parse : string -> option json.

#[local] Abbreviation step := (Channel.step backend toLocaleTimeString JSON_parse).
#[local] Abbreviation steps := (Channel.steps backend toLocaleTimeString JSON_parse).
#[local] Abbreviation onmessage := (Channel.onmessage backend toLocaleTimeString JSON_parse).

#[local] Arguments fetchAll : simpl never.

Lemma onmessage_frame (text : string) (w : World) :
  clock (after (onmessage text w)) = clock w /\
  timers (after (onmessage text w)) = timers w /\
  eventSources (after (onmessage text w)) = eventSources w.
Proof.
  rewrite onmessage_cases. destruct (refresh_signal JSON_parse text);
    cbn [after]; [| repeat split].
  rewrite fetchAll_after. cbn [with_store clock timers eventSources].
  destruct (batch_frame backend w) as (Hc & Ht & He & _).
  rewrite Hc, Ht, He. repeat split.
Qed.

Lemma Forall_drop {A : Type} (P : A -> Prop) (k : nat) (l : list A) :
  Forall P l -> Forall P (firstn k l ++ skipn (S k) l)%list.
Proof.
  intros H. apply Forall_app. split.
  - apply Forall_take, H.
  - apply Forall_drop, H.
Qed.

Lemma length_drop_nth {A : Type} (k : nat) (l : list A) (x : A) :
  nth_error l k = Some x ->
  S (List.length (firstn k l ++ skipn (S k) l)%list) = List.length l.
Proof.
  revert l. induction k as [| k IH]; intros [| y l] H; try discriminate.
  - cbn. rewrite drop_0. reflexivity.
  - cbn in H. cbn. f_equal. apply IH, H.
Qed.

Lemma step_accounted (t0 : Z) (n : nat) (i : Channel.Input) (w w' : World) :
  accounted t0 n w ->
  step i w = Some w' ->
  accounted t0 (n + errors [i]) w'.
Proof.
  intros (Hsum & Hdue & Hclk) Hstep. unfold accounted, Channel.pending in *.
  destruct i as [es | es text | es | dt | k]; cbn [Channel.step errors] in Hstep.
  - destruct (es <? eventSources w)%nat; [| discriminate].
    injection Hstep as <-. cbn. rewrite Nat.add_0_r. auto.
  - destruct (es <? eventSources w)%nat; [| discriminate].
    injection Hstep as <-.
    destruct (onmessage_frame text w) as (-> & -> & ->).
    cbn. rewrite Nat.add_0_r. auto.
  - destruct (es <? eventSources w)%nat; [| discriminate].
    injection Hstep as <-. cbn. rewrite length_app. cbn.
    split; [lia |]. split; [| exact Hclk].
    apply Forall_app. split; [exact Hdue |]. constructor; [cbn; lia | constructor].
  - destruct (0 <=? dt) eqn:Hdt; [| discriminate]. apply Z.leb_le in Hdt.
    injection Hstep as <-. cbn. rewrite Nat.add_0_r.
    split; [exact Hsum |]. split; [| lia].
    eapply Forall_impl; [exact Hdue |]. cbn. intros t Ht. lia.
  - destruct (nth_error (timers w) k) as [t |] eqn:Hk; [| discriminate].
    destruct (due t <=? clock w); [| discriminate].
    injection Hstep as <-. destruct t as [d []]. cbn. rewrite Nat.add_0_r.
    pose proof (length_drop_nth k (timers w) _ Hk) as Hlen.
    split; [lia |]. split; [| exact Hclk].
    apply Forall_drop, Hdue.
Qed.

Lemma errors_app (a b : list Channel.Input) :
  errors (a ++ b) = (errors a + errors b)%nat.
Proof.
  induction a as [| i a IH]; [reflexivity |].
  destruct i; cbn; rewrite IH; reflexivity.
Qed.

Lemma steps_accounted (t0 : Z) (inputs : list Channel.Input) :
  forall (n : nat) (w w' : World),
    accounted t0 n w ->
    steps inputs w = Some w' ->
    accounted t0 (n + errors inputs) w'.
Proof.
  induction inputs as [| i inputs IH]; intros n w w' Hacc Hsteps.
  - injection Hsteps as <-. cbn. rewrite Nat.add_0_r. exact Hacc.
  - cbn [Channel.steps] in Hsteps.
    destruct (step i w) as [w1 |] eqn:Hstep; [| discriminate].
    pose proof (step_accounted t0 n i w w1 Hacc Hstep) as Hacc1.
    pose proof (IH _ _ _ Hacc1 Hsteps) as Hacc'.
    change (i :: inputs) with ([i] ++ inputs)%list.
    rewrite errors_app, Nat.add_assoc. exact Hacc'.
Qed.

Lemma step_clock (i : Channel.Input) (w w' : World) :
  step i w = Some w' -> clock w <= clock w'.
Proof.
  intros Hstep.
  destruct i as [es | es text | es | dt | k]; cbn [Channel.step] in Hstep.
  - destruct (es <? eventSources w)%nat; [| discriminate].
    injection Hstep as <-. cbn. lia.
  - destruct (es <? eventSources w)%nat; [| discriminate].
    injection Hstep as <-. destruct (onmessage_frame text w) as (-> & _). lia.
  - destruct (es <? eventSources w)%nat; [| discriminate].
    injection Hstep as <-. cbn. lia.
  - destruct (0 <=? dt) eqn:Hdt; [| discriminate]. apply Z.leb_le in Hdt.
    injection Hstep as <-. cbn. lia.
  - destruct (nth_error (timers w) k) as [t |]; [| discriminate].
    destruct (due t <=? clock w); [| discriminate].
    injection Hstep as <-. destruct t as [d []]. cbn. lia.
Qed.

Lemma steps_clock (inputs : list Channel.Input) :
  forall w w', steps inputs w = Some w' -> clock w <= clock w'.
Proof.
  induction inputs as [| i inputs IH]; intros w w' Hsteps.
  - injection Hsteps as <-. lia.
  - cbn [Channel.steps] in Hsteps.
    destruct (step i w) as [w1 |] eqn:Hstep; [| discriminate].
    pose proof (step_clock i w w1 Hstep). pose proof (IH w1 w' Hsteps). lia.
Qed.

Lemma In_drop_other {A : Type} (x y : A) (k : nat) (l : list A) :
  In x l -> nth_error l k = Some y -> x <> y ->
  In x (firstn k l ++ skipn (S k) l)%list.
Proof.
  revert l. induction k as [| k IH]; intros [| a l] Hin Hk Hne; try discriminate.
  - injection Hk as ->. destruct Hin as [-> | Hin]; [contradiction |].
    cbn. rewrite drop_0. exact Hin.
  - cbn in Hk. destruct Hin as [-> | Hin]; [left; reflexivity |].
    right. apply IH; assumption.
Qed.

(** A timer stays pending through any step taken before it is due. *)
Lemma step_keeps_timer (t : Timer) (i : Channel.Input) (w w' : World) :
  In t (timers w) -> step i w = Some w' -> clock w < due t -> In t (timers w').
Proof.
  intros Hin Hstep Hearly.
  destruct i as [es | es text | es | dt | k]; cbn [Channel.step] in Hstep.
  - destruct (es <? eventSources w)%nat; [| discriminate].
    injection Hstep as <-. exact Hin.
  - destruct (es <? eventSources w)%nat; [| discriminate].
    injection Hstep as <-. destruct (onmessage_frame text w) as (_ & -> & _).
    exact Hin.
  - destruct (es <? eventSources w)%nat; [| discriminate].
    injection Hstep as <-. cbn. apply in_or_app. left. exact Hin.
  - destruct (0 <=? dt); [| discriminate]. injection Hstep as <-. exact Hin.
  - destruct (nth_error (timers w) k) as [t' |] eqn:Hk; [| discriminate].
    destruct (due t' <=? clock w) eqn:Hdue; [| discriminate].
    apply Z.leb_le in Hdue. injection Hstep as <-.
    destruct t' as [d []]. cbn in *.
    apply (In_drop_other t _ k (timers w) Hin Hk).
    intros ->. cbn in Hearly. lia.
Qed.

Lemma steps_keep_timer (t : Timer) (inputs : list Channel.Input) :
  forall w w', In t (timers w) -> steps inputs w = Some w' ->
               clock w' < due t -> In t (timers w').
Proof.
  induction inputs as [| i inputs IH]; intros w w' Hin Hsteps Hearly.
  - injection Hsteps as <-. exact Hin.
  - cbn [Channel.steps] in Hsteps.
    destruct (step i w) as [w1 |] eqn:Hstep; [| discriminate].
    pose proof (step_clock i w w1 Hstep) as H1.
    pose proof (steps_clock inputs w1 w' Hsteps) as H2.
    apply (IH w1 w'); [| exact Hsteps | exact Hearly].
    apply (step_keeps_timer t i w w1 Hin Hstep). lia.
Qed.

(** C4, amended. In any run of the page from the first [connectSSE]: an
    error event clears [sseConnected] and schedules exactly one reconnect
    timer, due 5000 ms after the event, without building a channel
    itself; that timer is still pending at every later moment of the run
    at which less than 5000 ms have gone by; a timer fires only once the
    clock has reached its due time, and firing it builds exactly one new
    [EventSource] and removes that timer; so every error has exactly one
    reconnection, pending or done. Nothing bounds the number of pending
    timers: each error adds one. *)
Theorem reconnect_policy
  (s : State) (t0 : Z) (inputs : list Channel.Input) (w : World) :
  steps inputs (Channel.connected_at s t0) = Some w ->
  sseConnected (store (after (Channel.onerror w))) = false /\
  timers (after (Channel.onerror w))
  = (timers w ++ [mkTimer (clock w + 5000) Reconnect])%list /\
  Channel.pending (after (Channel.onerror w)) = S (Channel.pending w) /\
  eventSources (after (Channel.onerror w)) = eventSources w /\
  (forall later w2,
     steps later (after (Channel.onerror w)) = Some w2 ->
     clock w2 < clock w + 5000 ->
     In (mkTimer (clock w + 5000) Reconnect) (timers w2)) /\
  (forall k w', step (Channel.Fire k) w = Some w' ->
     exists t, nth_error (timers w) k = Some t /\
               due t <= clock w /\
               eventSources w' = S (eventSources w) /\
               S (Channel.pending w') = Channel.pending w) /\
  (eventSources w + Channel.pending w)%nat = S (errors inputs).
Proof.
  intros Hrun.
  split; [reflexivity |]. split; [reflexivity |].
  split; [unfold Channel.pending; cbn; rewrite length_app; cbn; lia |].
  split; [reflexivity |].
  split.
  { intros later w2 Hlater Hearly.
    apply (steps_keep_timer _ later (after (Channel.onerror w)) w2);
      [| exact Hlater | exact Hearly].
    cbn. apply in_or_app. right. left. reflexivity. }
  split.
  - intros k w' Hstep. cbn [Channel.step] in Hstep.
    destruct (nth_error (timers w) k) as [t |] eqn:Hk; [| discriminate].
    destruct (due t <=? clock w) eqn:Hdue; [| discriminate].
    apply Z.leb_le in Hdue. injection Hstep as <-.
    exists t. split; [reflexivity |]. split; [exact Hdue |].
    destruct t as [d []]. cbn. split; [reflexivity |].
    unfold Channel.pending. cbn. apply (length_drop_nth k (timers w) _ Hk).
  - assert (H0 : accounted t0 0 (Channel.connected_at s t0)).
    { unfold accounted, Channel.connected_at. cbn. split; [reflexivity |].
      split; [constructor | lia]. }
    destruct (steps_accounted t0 inputs 0 _ w H0 Hrun) as (Hsum & _).
    exact Hsum.
Qed.

End Reconnect.

(** Two errors three seconds apart on the first channel (the browser
    retrying a connection the script never closes) leave two reconnect
    timers pending. *)
Lemma two_reconnect_timers_pending :
  ~ one_timer_at_most offline (fun _ => "12:00:00") (fun _ => None) initial 0
      [Channel.Error_ 0; Channel.Elapse 3000; Channel.Error_ 0].
Proof.
  intros H. specialize (H _ eq_refl). cbn in H. lia.
Qed.

Lemma reconnect_policy_witness :
  (eventSources awaiting_reconnect + Channel.pending awaiting_reconnect)%nat
  = S (errors [Channel.Error_ 0; Channel.Elapse 5000]).
Proof.
  apply (reconnect_policy offline (fun _ => "12:00:00") (fun _ => None)
           initial 0 [Channel.Error_ 0; Channel.Elapse 5000] awaiting_reconnect).
  reflexivity.
Defined.

(** ** The chart handle *)


Lemma at_most_one {A : Type} (P : A -> bool) (l : list A) :
  (forall i j x y, l !! i = Some x -> l !! j = Some y ->
                   P x = true -> P y = true -> i = j) ->
  (List.length (List.filter P l) <= 1)%nat.
Proof.
  induction l as [| a l IH]; intros H; [cbn; lia |].
  cbn [List.filter]. destruct (P a) eqn:Pa.
  - assert (Hnone : List.filter P l = []).
    { destruct (List.filter P l) as [| y ys] eqn:Hf; [reflexivity | exfalso].
      assert (Hy : In y (List.filter P l)) by (rewrite Hf; left; reflexivity).
      apply filter_In in Hy as (Hy & Py).
      apply list_elem_of_In, list_elem_of_lookup in Hy as (j & Hj).
      specialize (H 0%nat (S j) a y eq_refl Hj Pa Py). discriminate H. }
    rewrite Hnone. cbn. lia.
  - apply IH. intros i j x y Hi Hj Px Py.
    specialize (H (S i) (S j) x y Hi Hj Px Py). lia.
Qed.

Lemma tidy_one_live (w : Window) :
  tidy w -> (List.length (live_charts w) <= 1)%nat.
Proof.
  intros (Ht & _). apply at_most_one. intros i j x y Hi Hj Px Py.
  pose proof (Ht i x Hi Px) as Hx. pose proof (Ht j y Hj Py) as Hy.
  congruence.
Qed.

Lemma release_disposes (w : Window) :
  tidy w -> forall i c, charts (release w) !! i = Some c -> live c = false.
Proof.
  intros (Ht & _) i c Hi. unfold release in Hi.
  destruct (_activityChart w) as [k |] eqn:Hk; cbn in Hi.
  - destruct (decide (k = i)) as [-> | Hne].
    + rewrite list_lookup_alter_eq in Hi.
      destruct (charts w !! i) as [c0 |]; [| discriminate].
      injection Hi as <-. reflexivity.
    + rewrite list_lookup_alter_ne in Hi by exact Hne.
      destruct (live c) eqn:Hl; [| reflexivity].
      pose proof (Ht i c Hi Hl) as Hh. congruence.
  - destruct (live c) eqn:Hl; [| reflexivity].
    pose proof (Ht i c Hi Hl) as Hh. congruence.
Qed.

Lemma release_no_live (w : Window) : tidy w -> live_charts (release w) = [].
Proof.
  intros Ht. unfold live_charts.
  destruct (List.filter live (charts (release w))) as [| c l] eqn:Hf; [reflexivity |].
  assert (Hc : In c (List.filter live (charts (release w))))
    by (rewrite Hf; left; reflexivity).
  apply filter_In in Hc as (Hc & Hl).
  apply list_elem_of_In, list_elem_of_lookup in Hc as (i & Hi).
  rewrite (release_disposes w Ht i c Hi) in Hl. discriminate.
Qed.

Lemma release_handle (w : Window) : _activityChart (release w) = _activityChart w.
Proof.
  unfold release. destruct (_activityChart w) eqn:E; cbn; congruence.
Qed.

Lemma release_length (w : Window) :
  List.length (charts (release w)) = List.length (charts w).
Proof.
  unfold release. destruct (_activityChart w); [| reflexivity].
  cbn [charts]. apply length_alter.
Qed.

Lemma release_tidy (w : Window) : tidy w -> tidy (release w).
Proof.
  intros Ht. split.
  - intros i c Hi Hl. rewrite (release_disposes w Ht i c Hi) in Hl. discriminate.
  - intros i Hi. rewrite release_handle in Hi.
    destruct Ht as (_ & Hv). specialize (Hv i Hi).
    apply lookup_lt_is_Some. rewrite release_length.
    apply lookup_lt_is_Some, Hv.
Qed.

Lemma construct_tidy (cfg : option ChartData) (w : Window) :
  tidy w -> tidy (construct cfg (release w)).
Proof.
  intros Ht. split.
  - intros i c Hi Hl. cbn in *.
    apply lookup_app_Some in Hi as [Hold | [Hlen Hnew]].
    + rewrite (release_disposes w Ht i c Hold) in Hl. discriminate.
    + destruct (i - length (charts (release w)))%nat as [| n] eqn:Hd; [| discriminate].
      f_equal. lia.
  - intros i Hi. cbn in *. injection Hi as <-.
    apply lookup_lt_is_Some. rewrite length_app. cbn. lia.
Qed.

Section Handle.

Variable formatHour : string -> string.

Lemma renderChart_cases (canvas : bool) (activityData : json) (w : Window) :
  snd (renderChart formatHour canvas activityData w) = w \/
  snd (renderChart formatHour canvas activityData w) = release w \/
  snd (renderChart formatHour canvas activityData w)
  = construct (rows_of_json activityData ≫= chartData formatHour) (release w).
Proof.
  unfold renderChart. destruct canvas; cbn [negb]; [| left; reflexivity].
  destruct (pivot_throws activityData); [right; left | right; right]; reflexivity.
Qed.

Lemma reachable_tidy (w : Window) : reachable formatHour w -> tidy w.
Proof.
  induction 1 as [| canvas activityData w _ IH].
  - split; [intros i c Hi; destruct i; discriminate Hi | discriminate].
  - destruct (renderChart_cases canvas activityData w) as [-> | [-> | ->]].
    + exact IH.
    + apply release_tidy, IH.
    + apply construct_tidy, IH.
Qed.

(** C8. Between any two calls of [renderChart] at most one chart is live,
    and it is the one [window._activityChart] holds. A call either builds
    no chart (no canvas, or the pivot threw) and leaves the handle
    alone, or it first disposes of the chart the handle held, so that no
    chart at all is live at that moment, and only then builds the new
    chart and stores it in the handle: the chart the handle held before is
    destroyed by the time the handle is reassigned. *)
Theorem one_live_chart (w : Window) :
  reachable formatHour w ->
  (List.length (live_charts w) <= 1)%nat /\
  (forall i c, charts w !! i = Some c -> live c = true -> _activityChart w = Some i) /\
  forall (canvas : bool) (activityData : json),
    let w' := snd (renderChart formatHour canvas activityData w) in
    (List.length (live_charts w') <= 1)%nat /\
    ((List.length (charts w') = List.length (charts w) /\
      _activityChart w' = _activityChart w)
     \/
     (exists cfg, w' = construct cfg (release w)) /\
     live_charts (release w) = [] /\
     (exists cfg, live_charts w' = [mkChart cfg false]) /\
     (forall i, _activityChart w = Some i ->
                exists c, charts w' !! i = Some c /\ destroyed c = true)).
Proof.
  intros Hr. pose proof (reachable_tidy w Hr) as Ht.
  split; [apply tidy_one_live, Ht |]. split; [apply Ht |].
  intros canvas activityData w'.
  split.
  { apply tidy_one_live, reachable_tidy. subst w'. constructor. exact Hr. }
  subst w'. unfold renderChart.
  destruct canvas; cbn [negb]; [| left; split; reflexivity].
  destruct (pivot_throws activityData); cbn [snd].
  - left. split; [apply release_length | apply release_handle].
  - right. split; [eexists; reflexivity |].
    split; [apply release_no_live, Ht |].
    split.
    + eexists. unfold live_charts, construct. cbn [charts].
      rewrite List.filter_app.
      change (List.filter live (charts (release w))) with (live_charts (release w)).
      rewrite (release_no_live w Ht). reflexivity.
    + intros i Hi. unfold construct. cbn [charts].
      destruct Ht as (_ & Hv). destruct (Hv i Hi) as (c0 & Hc0).
      exists (dispose c0). split; [| reflexivity].
      apply lookup_app_l_Some. unfold release. rewrite Hi. cbn [charts].
      rewrite list_lookup_alter_eq, Hc0. reflexivity.
Qed.

End Handle.

Lemma one_live_chart_witness :
  (List.length
     (live_charts
        (snd (renderChart (fun h => h) true (JArr [])
                (snd (renderChart (fun h => h) true (JArr []) fresh)))))
   <= 1)%nat.
Proof.
  apply (one_live_chart (fun h => h)
           (snd (renderChart (fun h => h) true (JArr []) fresh))
           (reach_render (fun h => h) true (JArr []) fresh (reach_fresh (fun h => h)))).
Defined.

(** ** The chart transformer *)

(** *** The hour axis *)

Lemma str_le_cases (a b : string) :
  str_le a b <-> a = b \/ String_as_OT.lt a b.
Proof.
  unfold str_le, String.leb.
  pose proof (String_as_OT.cmp_eq a b) as He.
  pose proof (String_as_OT.cmp_lt a b) as Hl.
  unfold String_as_OT.cmp in He, Hl.
  destruct (String.compare a b) eqn:Hc.
  - split; [intros _; left; apply He; reflexivity | reflexivity].
  - split; [intros _; right; apply Hl; reflexivity | reflexivity].
  - split; [discriminate |].
    intros [Heq | Hlt]; [apply He in Heq | apply Hl in Hlt]; discriminate.
Qed.

Lemma str_lt_cases (a b : string) : str_lt a b <-> String_as_OT.lt a b.
Proof.
  unfold str_lt, String.ltb.
  pose proof (String_as_OT.cmp_lt a b) as Hl. unfold String_as_OT.cmp in Hl.
  destruct (String.compare a b); split; intros H;
    try reflexivity; try discriminate; try (apply Hl; reflexivity);
    apply Hl in H; discriminate.
Qed.

#[local] Instance str_le_total : Total str_le.
Proof. intros a b. unfold str_le. apply String.leb_total. Qed.

#[local] Instance str_le_trans : Transitive str_le.
Proof.
  intros a b c Hab Hbc.
  apply str_le_cases in Hab. apply str_le_cases in Hbc. apply str_le_cases.
  destruct Hab as [-> | Hab]; [exact Hbc |].
  destruct Hbc as [<- | Hbc]; [right; exact Hab |].
  right. eapply String_as_OT.lt_trans; eassumption.
Qed.

Lemma str_le_neq_lt (a b : string) : str_le a b -> a <> b -> str_lt a b.
Proof.
  intros Hle Hne. apply str_lt_cases.
  apply str_le_cases in Hle as [Heq | Hlt]; [contradiction | exact Hlt].
Qed.

Lemma strictly_sorted (l : list string) :
  StronglySorted str_le l -> NoDup l -> StronglySorted str_lt l.
Proof.
  induction 1 as [| a l Hs IH Hall]; intros Hnd; [constructor |].
  apply NoDup_cons in Hnd as (Hnotin & Hnd).
  constructor; [apply IH, Hnd |].
  apply List.Forall_forall. intros b Hb.
  apply str_le_neq_lt.
  - rewrite List.Forall_forall in Hall. apply Hall, Hb.
  - intros ->. apply Hnotin, list_elem_of_In, Hb.
Qed.

Lemma existsb_eqb_In (x : string) (l : list string) :
  existsb (String.eqb x) l = true <-> In x l.
Proof.
  rewrite existsb_exists. split.
  - intros (y & Hy & Heq). apply String.eqb_eq in Heq. subst y. exact Hy.
  - intros H. exists x. split; [exact H | apply String.eqb_refl].
Qed.

Lemma Set_values_from (xs seen : list string) :
  NoDup seen ->
  let out := fold_left
               (fun seen x => if existsb (String.eqb x) seen then seen
                              else (seen ++ [x])%list) xs seen in
  NoDup out /\ forall x, In x out <-> In x seen \/ In x xs.
Proof.
  revert seen. induction xs as [| y xs IH]; intros seen Hnd; cbn.
  - split; [exact Hnd | intros x; tauto].
  - destruct (existsb (String.eqb y) seen) eqn:Hy.
    + apply existsb_eqb_In in Hy.
      destruct (IH seen Hnd) as (Hnd' & Hin). split; [exact Hnd' |].
      intros x. rewrite Hin. split; [tauto |].
      intros [H | [<- | H]]; tauto.
    + assert (Hny : ~ In y seen).
      { intros H. apply existsb_eqb_In in H. congruence. }
      assert (Hnd1 : NoDup (seen ++ [y])).
      { apply NoDup_app. split; [exact Hnd |]. split.
        - intros x Hx Hx'. apply list_elem_of_In in Hx, Hx'.
          destruct Hx' as [<- | []]. contradiction.
        - apply NoDup_singleton. }
      destruct (IH (seen ++ [y])%list Hnd1) as (Hnd' & Hin). split; [exact Hnd' |].
      intros x. rewrite Hin, in_app_iff. cbn. tauto.
Qed.

Lemma Set_values_spec (xs : list string) :
  NoDup (Set_values xs) /\ forall x, In x (Set_values xs) <-> In x xs.
Proof.
  destruct (Set_values_from xs [] (NoDup_nil_2)) as (Hnd & Hin).
  split; [exact Hnd |]. intros x. unfold Set_values. rewrite Hin. cbn. tauto.
Qed.

(** The axis is strictly ascending and holds exactly the hours of the rows. *)
Lemma allHours_spec (rows : list ActivityRow) :
  StronglySorted str_lt (allHours rows) /\
  NoDup (allHours rows) /\
  forall h, In h (allHours rows) <-> exists r, In r rows /\ hour r = h.
Proof.
  unfold allHours.
  destruct (Set_values_spec (map hour rows)) as (Hnd & Hin).
  pose proof (merge_sort_Permutation str_le (Set_values (map hour rows))) as Hp.
  assert (Hnd' : NoDup (merge_sort str_le (Set_values (map hour rows))))
    by (rewrite Hp; exact Hnd).
  split; [| split; [exact Hnd' |]].
  - apply strictly_sorted; [| exact Hnd'].
    apply StronglySorted_merge_sort; typeclasses eauto.
  - intros h. split.
    + intros H. apply (Permutation_in _ Hp), Hin, in_map_iff in H as (r & Hr & Hrin).
      exists r. split; assumption.
    + intros (r & Hrin & Hr).
      apply (Permutation_in _ (Permutation_sym Hp)), Hin, in_map_iff.
      exists r. split; assumption.
Qed.

(** *** The grouping loop *)

Lemma matching_spec (src h : string) (r : ActivityRow) :
  matching src h r = true <-> source r = src /\ hour r = h.
Proof.
  unfold matching. rewrite andb_true_iff, !String.eqb_eq. reflexivity.
Qed.

Lemma row_at_snoc (rows : list ActivityRow) (r : ActivityRow) (src h : string) :
  row_at (rows ++ [r]) src h
  = if matching src h r then Some r else row_at rows src h.
Proof. unfold row_at. rewrite rev_app_distr. reflexivity. Qed.

Lemma row_at_none (rows : list ActivityRow) (src h : string) :
  (forall r, In r rows -> ~ (source r = src /\ hour r = h)) ->
  row_at rows src h = None.
Proof.
  intros H. unfold row_at.
  destruct (List.find _ (rev rows)) as [r |] eqn:Hf; [exfalso | reflexivity].
  apply find_some in Hf as (Hin & Hm).
  apply (H r); [apply in_rev, Hin | apply matching_spec, Hm].
Qed.


Lemma assoc_None {A : Type} (k : string) (l : list (string * A)) :
  assoc k l = None <-> ~ In k (map fst l).
Proof.
  induction l as [| [k' v] l IH]; cbn; [tauto |].
  destruct (String.eqb_spec k' k) as [-> | Hne].
  - split; [discriminate | tauto].
  - rewrite IH. tauto.
Qed.

Lemma assoc_In {A : Type} (k : string) (v : A) (l : list (string * A)) :
  NoDup (map fst l) -> In (k, v) l -> assoc k l = Some v.
Proof.
  induction l as [| [k' v'] l IH]; cbn; [tauto |].
  intros Hnd [Heq | Hin].
  - injection Heq as -> ->. rewrite String.eqb_refl. reflexivity.
  - apply NoDup_cons in Hnd as (Hnotin & Hnd).
    destruct (String.eqb_spec k' k) as [-> | Hne]; [| apply IH; assumption].
    exfalso. apply Hnotin, list_elem_of_In, in_map_iff.
    exists (k, v). split; [reflexivity | exact Hin].
Qed.

Lemma put_keys (src hr : string) (c : Z) (sources : list (string * gmap string Z)) :
  map fst (put src hr c sources)
  = if existsb (String.eqb src) (map fst sources) then map fst sources
    else (map fst sources ++ [src])%list.
Proof.
  induction sources as [| [k m] rest IH]; cbn; [reflexivity |].
  rewrite (String.eqb_sym src k).
  destruct (String.eqb k src); cbn; [reflexivity |].
  rewrite IH. destruct (existsb _ _); reflexivity.
Qed.

Lemma put_assoc (src hr : string) (c : Z) (sources : list (string * gmap string Z))
  (k : string) :
  assoc k (put src hr c sources)
  = if String.eqb src k
    then Some (<[hr := c]> (default ∅ (assoc src sources)))
    else assoc k sources.
Proof.
  induction sources as [| [k' m] rest IH]; cbn.
  - destruct (String.eqb src k); reflexivity.
  - destruct (String.eqb_spec k' src) as [-> | Hne]; cbn.
    + destruct (String.eqb src k); reflexivity.
    + rewrite IH. destruct (String.eqb_spec src k) as [Heq | Hne'].
      * subst k. destruct (String.eqb_spec k' src); [contradiction | reflexivity].
      * reflexivity.
Qed.

Lemma grouped_step (rows : list ActivityRow) (r : ActivityRow)
  (sources : list (string * gmap string Z)) :
  grouped rows sources ->
  grouped (rows ++ [r]) (put (source r) (hour r) (count r) sources).
Proof.
  intros (Hnd & Hkeys & Hmap). split; [| split].
  - rewrite put_keys.
    destruct (existsb _ _) eqn:He; [exact Hnd |].
    apply NoDup_app. split; [exact Hnd |]. split; [| apply NoDup_singleton].
    intros x Hx Hx'. apply list_elem_of_In in Hx, Hx'. destruct Hx' as [<- | []].
    apply existsb_eqb_In in Hx. congruence.
  - intros k. rewrite put_keys.
    assert (Hgoal : In k (map fst sources) \/ k = source r
                    <-> exists r', In r' (rows ++ [r]) /\ source r' = k).
    { rewrite Hkeys. split.
      - intros [(r' & Hin & Hs) | ->].
        + exists r'. split; [apply in_or_app; left; exact Hin | exact Hs].
        + exists r. split; [apply in_or_app; right; left; reflexivity | reflexivity].
      - intros (r' & Hin & Hs). apply in_app_or in Hin as [Hin | [<- | []]].
        + left. exists r'. split; assumption.
        + right. symmetry. exact Hs. }
    rewrite <- Hgoal.
    destruct (existsb _ _) eqn:He.
    + apply existsb_eqb_In in He. split; [tauto |]. intros [H | ->]; assumption.
    + rewrite in_app_iff. cbn. split; [intros [H | [<- | []]]; tauto |].
      intros [H | ->]; tauto.
  - intros k hourMap Hk h. rewrite put_assoc in Hk. rewrite row_at_snoc.
    unfold matching.
    destruct (String.eqb_spec (source r) k) as [<- | Hne]; cbn [andb].
    + injection Hk as <-.
      destruct (String.eqb_spec (hour r) h) as [<- | Hneh].
      * rewrite lookup_insert_eq. reflexivity.
      * rewrite lookup_insert_ne by exact Hneh.
        destruct (assoc (source r) sources) as [m0 |] eqn:Ha; cbn.
        -- apply Hmap, Ha.
        -- rewrite lookup_empty. rewrite row_at_none; [reflexivity |].
           intros r' Hin (Hs & _). apply assoc_None in Ha. apply Ha, Hkeys.
           exists r'. split; assumption.
    + apply Hmap, Hk.
Qed.

Lemma plain_row_own (r : ActivityRow) :
  plain_row r = true -> inherited (source r) = false /\ inherited (hour r) = false.
Proof.
  unfold plain_row. intros H. apply andb_true_iff in H as (Hs & Hh).
  apply negb_true_iff in Hs, Hh. split; assumption.
Qed.

Lemma plain_modelled (rows : list ActivityRow) :
  forallb plain_row rows = true -> forallb modelled rows = true.
Proof.
  intros H. apply forallb_forall. intros r Hr.
  rewrite forallb_forall in H. destruct (plain_row_own r (H r Hr)) as (Hs & Hh).
  unfold modelled. rewrite Hs, Hh. reflexivity.
Qed.

(** On plain rows every turn of the loop is a [put]. *)
Lemma group_by_source_own (rows : list ActivityRow) :
  forallb plain_row rows = true ->
  forall sources,
    fold_left visit rows sources
    = fold_left (fun sources row => put (source row) (hour row) (count row) sources)
                rows sources.
Proof.
  induction rows as [| r rows IH]; intros Hplain sources; [reflexivity |].
  cbn [forallb] in Hplain. apply andb_true_iff in Hplain as (Hr & Hplain).
  cbn [fold_left]. unfold visit at 2.
  destruct (plain_row_own r Hr) as (-> & _). apply IH, Hplain.
Qed.

Lemma chartData_plain (formatHour : string -> string) (rows : list ActivityRow) :
  forallb plain_row rows = true ->
  chartData formatHour rows
  = Some {| labels := map formatHour (allHours rows);
            datasets := map (dataset_of (allHours rows))
                            (Object_entries (group_by_source rows)) |}.
Proof.
  intros Hplain. unfold chartData. rewrite (plain_modelled rows Hplain). reflexivity.
Qed.

Lemma group_by_source_grouped (rows : list ActivityRow) :
  forallb plain_row rows = true ->
  grouped rows (group_by_source rows).
Proof.
  intros Hplain. unfold group_by_source.
  rewrite (group_by_source_own rows Hplain). clear Hplain.
  induction rows as [| r rows IH] using rev_ind.
  - split; [constructor | split].
    + intros k. cbn. split; [tauto | intros (r & [] & _)].
    + intros k hourMap Hk. discriminate Hk.
  - rewrite fold_left_app. cbn [fold_left]. apply grouped_step, IH.
Qed.

(** *** [Object.entries] *)

Lemma filter_split {A : Type} (p : A -> bool) (l : list A) :
  Permutation (List.filter p l ++ List.filter (fun x => negb (p x)) l) l.
Proof.
  induction l as [| a l IH]; [constructor |].
  cbn. destruct (p a); cbn.
  - constructor. exact IH.
  - symmetry. apply Permutation_cons_app. symmetry. exact IH.
Qed.

Lemma Object_entries_Permutation {V : Type} (o : list (string * V)) :
  Permutation (Object_entries o) o.
Proof.
  unfold Object_entries.
  set (tag := fun kv : string * V =>
                match array_index (fst kv) with
                | Some n => Some (n, kv)
                | None => None
                end).
  set (is_index := fun kv : string * V =>
                     match array_index (fst kv) with
                     | Some _ => true
                     | None => false
                     end).
  assert (Hidx : map snd (omap tag o) = List.filter is_index o).
  { induction o as [| kv o IH]; [reflexivity |].
    cbn. unfold tag at 1, is_index at 1.
    destruct (array_index (fst kv)); cbn; rewrite IH; reflexivity. }
  assert (Hrest : List.filter (fun kv : string * V =>
                                 match array_index (fst kv) with
                                 | Some _ => false
                                 | None => true
                                 end) o
                  = List.filter (fun kv => negb (is_index kv)) o).
  { apply List.filter_ext. intros kv. unfold is_index.
    destruct (array_index (fst kv)); reflexivity. }
  rewrite Hrest.
  rewrite <- (filter_split is_index o) at 3.
  apply Permutation_app; [| reflexivity].
  rewrite <- Hidx. apply Permutation_map, merge_sort_Permutation.
Qed.

Lemma or_zero_count (x : option ActivityRow) :
  or_zero (count <$> x) = match x with Some r => count r | None => 0 end.
Proof.
  destruct x as [r |]; [| reflexivity]. cbn.
  destruct (Z.eqb_spec (count r) 0) as [-> | _]; reflexivity.
Qed.

(** *** The series *)

Section Series.

Variable formatHour : string -> string.


End Series.



(** ** More on the orchestrated refresh *)

Section RefreshTrace.

Variable backend : Backend.
Variable toLocaleTimeString : Z -> string.

Lemma run_query_emitted (q : Query) (w : World) :
  emitted (run_query backend q w) = events_of backend q (store w).
Proof.
  rewrite run_query_cases. unfold events_of.
  destruct (backend _) as [[|v]|]; reflexivity.
Qed.

Lemma run_query_after (q : Query) (w : World) :
  after (run_query backend q w) = with_store (settle backend (store w) q) w.
Proof.
  rewrite run_query_cases. unfold settle.
  destruct (backend _) as [[|v]|]; try reflexivity; destruct w; reflexivity.
Qed.

Lemma events_of_frame (q : Query) (w w' : World) :
  same_frame w w' -> events_of backend q (store w') = events_of backend q (store w).
Proof.
  intros Hfr. unfold events_of. rewrite (request_of_frame q w w' Hfr). reflexivity.
Qed.

Lemma settle_frame (q : Query) (w w' : World) :
  same_frame w w' -> settle backend (store w') q = settle backend (store w) q.
Proof.
  intros Hfr. unfold settle. rewrite (request_of_frame q w w' Hfr). reflexivity.
Qed.

(** The trace and the state of any batch of queries, query by query. *)
Lemma queries_run (w : World) (qs : list Query) :
  forall w', same_frame w w' ->
    emitted (promise_all (map (run_query backend) qs) w')
    = concat (map (fun q => events_of backend q (store w)) qs) /\
    after (promise_all (map (run_query backend) qs) w')
    = with_store (fun s => fold_left (fun s q => settle backend (store w) q s) qs s) w'.
Proof.
  induction qs as [| q qs IH]; intros w' Hfr.
  - split; [reflexivity | destruct w'; reflexivity].
  - cbn [map].
    destruct (promise_all_cons (run_query backend q)
                (map (run_query backend) qs) w') as (_ & -> & ->).
    assert (Hfr' : same_frame w (after (run_query backend q w'))).
    { eapply same_frame_trans; [exact Hfr | apply run_query_frame]. }
    destruct (IH _ Hfr') as (-> & ->).
    rewrite run_query_emitted, (events_of_frame q w w' Hfr).
    split; [reflexivity |].
    rewrite run_query_after, (settle_frame q w w' Hfr).
    destruct w'; reflexivity.
Qed.

Lemma request_of_raised (q : Query) (s : State) :
  request_of q (with_loading true s) = request_of q s.
Proof. destruct q; reflexivity. Qed.

Lemma fold_left_same {A B : Type} (f g : A -> B -> A) (l : list B) :
  (forall a b, f a b = g a b) -> forall a, fold_left f l a = fold_left g l a.
Proof.
  intros H. induction l as [| b l IH]; intros a; [reflexivity |].
  cbn. rewrite H. apply IH.
Qed.

Lemma batch_run (w : World) :
  emitted (batch backend w)
  = concat (map (fun q => events_of backend q (store w)) all_queries) /\
  store (after (batch backend w))
  = fold_left (fun s q => settle backend (store w) q s) all_queries
              (with_loading true (store w)).
Proof.
  unfold batch.
  destruct (queries_run (with_store (with_loading true) w) all_queries
              (with_store (with_loading true) w) (same_frame_refl _)) as (-> & ->).
  split.
  - apply f_equal, map_ext. intros q. unfold events_of.
    cbn [store with_store]. rewrite request_of_raised. reflexivity.
  - cbn [store with_store]. apply fold_left_same.
    intros s q. unfold settle. rewrite request_of_raised. reflexivity.
Qed.

Lemma requests_app (a b : list Event) :
  requests (a ++ b) = (requests a ++ requests b)%list.
Proof.
  induction a as [| e a IH]; [reflexivity |].
  destruct e; cbn; rewrite IH; reflexivity.
Qed.

Lemma logged_app (a b : list Event) : logged (a ++ b) = (logged a + logged b)%nat.
Proof.
  induction a as [| e a IH]; [reflexivity |].
  destruct e; cbn; rewrite IH; reflexivity.
Qed.

Lemma renders_app (a b : list Event) : renders (a ++ b) = (renders a + renders b)%nat.
Proof.
  induction a as [| e a IH]; [reflexivity |].
  destruct e; cbn; rewrite IH; reflexivity.
Qed.

Lemma events_of_requests (q : Query) (s : State) :
  requests (events_of backend q s) = [request_of q s].
Proof.
  unfold events_of. destruct (backend _) as [[|v]|]; try reflexivity.
  destruct q; reflexivity.
Qed.

Lemma events_of_logged (q : Query) (s : State) :
  logged (events_of backend q s)
  = if fails backend (request_of q s) then 1%nat else 0%nat.
Proof.
  unfold events_of, fails. destruct (backend _) as [[|v]|]; try reflexivity.
  destruct q; reflexivity.
Qed.

Lemma events_of_renders (q : Query) (s : State) :
  renders (events_of backend q s)
  = match q with
    | QActivity => if fails backend (request_of q s) then 0%nat else 1%nat
    | _ => 0%nat
    end.
Proof.
  unfold events_of, fails.
  destruct (backend _) as [[|v]|]; destruct q; reflexivity.
Qed.

(** X1. Whatever the backend answers, a refresh sends exactly six
    requests, one per query, in the order posts, stats, trends, source
    stats, runs, activity, each built from the filters the page had when
    [fetchAll] was called; no failure stops a later request from going
    out, and nothing else is requested. *)
Theorem fetchAll_sends_six_requests (w : World) :
  requests (emitted (fetchAll backend toLocaleTimeString w))
  = map (fun q => request_of q (store w)) all_queries.
Proof.
  rewrite fetchAll_emitted. cbn [requests].
  rewrite requests_app. cbn [requests]. rewrite app_nil_r.
  destruct (batch_run w) as (-> & _).
  unfold all_queries. cbn [map concat].
  rewrite !requests_app, !events_of_requests. reflexivity.
Qed.

Lemma settle_field_same (s0 : State) (q : Query) (s : State) :
  field_of q (settle backend s0 q s)
  = match backend (request_of q s0) with
    | Some (Parsed v) => v
    | _ => field_of q s
    end.
Proof.
  unfold settle. destruct (backend _) as [[|v]|]; try reflexivity.
  destruct q; reflexivity.
Qed.

Lemma settle_field_other (s0 : State) (q q' : Query) (s : State) :
  q <> q' -> field_of q (settle backend s0 q' s) = field_of q s.
Proof.
  intros Hne. unfold settle. destruct (backend _) as [[|v]|]; try reflexivity.
  apply set_field_other, Hne.
Qed.

Lemma settled_field (s0 : State) (qs : list Query) (q : Query) :
  NoDup qs -> In q qs ->
  forall s,
    field_of q (fold_left (fun s q' => settle backend s0 q' s) qs s)
    = match backend (request_of q s0) with
      | Some (Parsed v) => v
      | _ => field_of q s
      end.
Proof.
  induction qs as [| q0 qs IH]; intros Hnd Hin s; [destruct Hin |].
  apply NoDup_cons in Hnd as (Hnotin & Hnd). cbn [fold_left].
  destruct (decide (q = q0)) as [<- | Hne].
  - assert (Hrest : forall s', field_of q (fold_left
                       (fun s q' => settle backend s0 q' s) qs s') = field_of q s').
    { clear IH Hin. induction qs as [| q1 qs IHqs]; intros s'; [reflexivity |].
      cbn [fold_left]. rewrite IHqs.
      - apply settle_field_other. intros ->. apply Hnotin. left.
      - intros H. apply Hnotin. right. exact H.
      - apply NoDup_cons in Hnd as (_ & Hnd). exact Hnd. }
    rewrite Hrest. apply settle_field_same.
  - destruct Hin as [-> | Hin]; [contradiction |].
    rewrite (IH Hnd Hin). rewrite settle_field_other by exact Hne. reflexivity.
Qed.

Lemma all_queries_NoDup : NoDup all_queries.
Proof. apply (bool_decide_unpack _). reflexivity. Qed.

Lemma all_queries_In (q : Query) : In q all_queries.
Proof. destruct q; cbn; tauto. Qed.

Lemma refresh_field (q : Query) (w : World) :
  field_of q (store (after (fetchAll backend toLocaleTimeString w)))
  = match backend (request_of q (store w)) with
    | Some (Parsed v) => v
    | _ => field_of q (store w)
    end.
Proof.
  rewrite fetchAll_after. cbn [store with_store].
  destruct (batch_run w) as (_ & ->).
  transitivity (field_of q (fold_left (fun s q' => settle backend (store w) q' s)
                              all_queries (with_loading true (store w)))).
  { destruct q; reflexivity. }
  rewrite (settled_field (store w) all_queries q all_queries_NoDup (all_queries_In q)).
  destruct (backend _) as [[|v]|]; try reflexivity; destruct q; reflexivity.
Qed.

(** X2. After a refresh each of the six fields holds the reply to its
    own query if that query succeeded, and what it held before if it
    failed; what happens to one query has no bearing on the field of
    another. *)
Theorem fetchAll_field (q : Query) (w : World) :
  field_of q (store (after (fetchAll backend toLocaleTimeString w)))
  = match backend (request_of q (store w)) with
    | Some (Parsed v) => v
    | _ => field_of q (store w)
    end.
Proof. apply refresh_field. Qed.

Lemma refresh_rest (w : World) :
  tab (store (after (fetchAll backend toLocaleTimeString w))) = tab (store w) /\
  sourceFilter (store (after (fetchAll backend toLocaleTimeString w)))
  = sourceFilter (store w) /\
  searchQuery (store (after (fetchAll backend toLocaleTimeString w)))
  = searchQuery (store w) /\
  sseConnected (store (after (fetchAll backend toLocaleTimeString w)))
  = sseConnected (store w) /\
  clock (after (fetchAll backend toLocaleTimeString w)) = clock w /\
  timers (after (fetchAll backend toLocaleTimeString w)) = timers w /\
  eventSources (after (fetchAll backend toLocaleTimeString w)) = eventSources w.
Proof.
  rewrite fetchAll_after.
  destruct (batch_frame backend w) as (Hc & Ht & He & Hsf & Hsq & _ & Hsse).
  assert (Htab : tab (store (after (batch backend w))) = tab (store w)).
  { apply (batch_inv backend (fun w' => tab (store w') = tab (store w)));
      [| reflexivity].
    intros q w' Hw'. rewrite run_query_after. cbn [store with_store].
    unfold settle. destruct (backend _) as [[|v]|]; try exact Hw'.
    destruct q; exact Hw'. }
  cbn in *. repeat split; assumption.
Qed.

(** X3. A refresh changes nothing of the page but the six fields, the
    loading flag and the last-update time: the tab, both filters, the
    connectivity flag, the clock, the pending timers and the channels
    are as before. *)
Theorem fetchAll_leaves_the_rest (w : World) :
  tab (store (after (fetchAll backend toLocaleTimeString w))) = tab (store w) /\
  sourceFilter (store (after (fetchAll backend toLocaleTimeString w)))
  = sourceFilter (store w) /\
  searchQuery (store (after (fetchAll backend toLocaleTimeString w)))
  = searchQuery (store w) /\
  sseConnected (store (after (fetchAll backend toLocaleTimeString w)))
  = sseConnected (store w) /\
  clock (after (fetchAll backend toLocaleTimeString w)) = clock w /\
  timers (after (fetchAll backend toLocaleTimeString w)) = timers w /\
  eventSources (after (fetchAll backend toLocaleTimeString w)) = eventSources w.
Proof. apply refresh_rest. Qed.

(** X4. A refresh logs exactly one console error for each query the
    backend fails, and none when all six succeed. *)
Theorem fetchAll_logs_each_failure (w : World) :
  logged (emitted (fetchAll backend toLocaleTimeString w))
  = List.length (failing backend (store w)).
Proof.
  rewrite fetchAll_emitted. cbn [logged].
  rewrite logged_app. cbn [logged]. rewrite Nat.add_0_r.
  destruct (batch_run w) as (-> & _).
  unfold failing, all_queries. cbn [map concat List.filter].
  rewrite !logged_app, !events_of_logged. cbn [logged].
  repeat (destruct (fails backend _); cbn [List.length Nat.add]); reflexivity.
Qed.

(** X5. A refresh schedules one rendering of the chart when the activity
    query succeeded and none when it failed; the other five queries never
    schedule one. *)
Theorem fetchAll_renders_on_activity (w : World) :
  renders (emitted (fetchAll backend toLocaleTimeString w))
  = if fails backend (request_of QActivity (store w)) then 0%nat else 1%nat.
Proof.
  rewrite fetchAll_emitted. cbn [renders].
  rewrite renders_app. cbn [renders]. rewrite Nat.add_0_r.
  destruct (batch_run w) as (-> & _).
  unfold all_queries. cbn [map concat].
  rewrite !renders_app, !events_of_renders. cbn [renders].
  destruct (fails backend _); reflexivity.
Qed.

Lemma refresh_flags (w : World) :
  loading (store (after (fetchAll backend toLocaleTimeString w))) = false /\
  lastUpdate (store (after (fetchAll backend toLocaleTimeString w)))
  = Some (toLocaleTimeString (clock w)).
Proof.
  rewrite fetchAll_after. split; [reflexivity |].
  destruct (batch_frame backend w) as (Hc & _).
  cbn [store with_store lastUpdate with_lastUpdate]. rewrite Hc. reflexivity.
Qed.

Lemma State_ext (s s' : State) :
  tab s = tab s' -> sourceFilter s = sourceFilter s' ->
  searchQuery s = searchQuery s' ->
  (forall q, field_of q s = field_of q s') ->
  sseConnected s = sseConnected s' -> loading s = loading s' ->
  lastUpdate s = lastUpdate s' -> s = s'.
Proof.
  intros H1 H2 H3 Hf H4 H5 H6.
  pose proof (Hf QPosts) as F1. pose proof (Hf QStats) as F2.
  pose proof (Hf QTrends) as F3. pose proof (Hf QSourceStats) as F4.
  pose proof (Hf QRuns) as F5. pose proof (Hf QActivity) as F6.
  destruct s, s'. cbn in *. congruence.
Qed.

Lemma World_ext (w w' : World) :
  store w = store w' -> clock w = clock w' -> timers w = timers w' ->
  eventSources w = eventSources w' -> w = w'.
Proof. destruct w, w'. cbn. congruence. Qed.

(** X6. Against a backend that answers as before, a second refresh,
    whenever it is run, changes nothing in the state but the last-update
    time: every field, flag and filter is as the first refresh left it. *)
Theorem fetchAll_twice (w : World) (t : Z) :
  let w1 := after (fetchAll backend toLocaleTimeString w) in
  store (after (fetchAll backend toLocaleTimeString
                  (mkWorld (store w1) t (timers w1) (eventSources w1))))
  = with_lastUpdate (Some (toLocaleTimeString t)) (store w1).
Proof.
  intros w1. set (w2 := mkWorld (store w1) t (timers w1) (eventSources w1)).
  destruct (refresh_rest w) as (_ & S1 & Q1 & _).
  destruct (refresh_rest w2) as (T2 & S2 & Q2 & C2 & _).
  fold w1 in S1, Q1.
  assert (Hreq : forall q, request_of q (store w2) = request_of q (store w)).
  { intros q. destruct q; cbn; unfold postsParams, trendsParams;
      rewrite ?S1, ?Q1; reflexivity. }
  apply State_ext; [exact T2 | exact S2 | exact Q2 | | exact C2 | |].
  - intros q. rewrite (refresh_field q w2), Hreq.
    change (store w2) with (store w1).
    transitivity (field_of q (store w1)); [| destruct q; reflexivity].
    unfold w1. rewrite (refresh_field q w).
    destruct (backend (request_of q (store w))) as [[|v]|]; reflexivity.
  - destruct (refresh_flags w2) as (-> & _).
    transitivity (loading (store w1)); [| reflexivity].
    unfold w1. destruct (refresh_flags w) as (-> & _). reflexivity.
  - destruct (refresh_flags w2) as (_ & ->). reflexivity.
Qed.

End RefreshTrace.

(** ** Start-up and the three triggers *)

Section Startup.

Variable backend : Backend.
Variable toLocaleTimeString : Z -> string.
Variable JSON_parse : string -> option json.

#[local] Arguments fetchAll : simpl never.

Lemma init_run (w : World) :
  Lifecycle.init backend toLocaleTimeString w
  = Lifecycle.mkStarted
      (mkRun (Normal tt)
             (mkWorld (store (after (fetchAll backend toLocaleTimeString w)))
                      (clock w) (timers w) (S (eventSources w)))
             (emitted (fetchAll backend toLocaleTimeString w)
                ++ [EventSourceOpened "/api/events"])%list)
      [Lifecycle.mkInterval 30000].
Proof.
  destruct (refresh_rest backend toLocaleTimeString w) as (_ & _ & _ & _ & Hc & Ht & He).
  unfold Lifecycle.init, bind.
  destruct (fetchAll backend toLocaleTimeString w) as [o w1 ev] eqn:Hrun.
  pose proof (fetchAll_outcome backend toLocaleTimeString w) as Ho.
  rewrite Hrun in Ho. cbn in Ho, Hc, Ht, He. subst o.
  unfold Channel.connectSSE. cbn. rewrite Hc, Ht, He. reflexivity.
Qed.

(** X7. [init] never throws. It runs one full refresh first and opens the
    push channel only after that refresh has settled, then registers one
    30000 ms interval; it leaves exactly one more [EventSource] than it
    found and touches neither the clock nor the pending timers. Started
    on a page without channels or timers, it leaves the page from which
    the runs of the channel start. *)
Theorem init_refreshes_then_connects (w : World) :
  outcome (Lifecycle.run (Lifecycle.init backend toLocaleTimeString w)) = Normal tt /\
  emitted (Lifecycle.run (Lifecycle.init backend toLocaleTimeString w))
  = (emitted (fetchAll backend toLocaleTimeString w)
       ++ [EventSourceOpened "/api/events"])%list /\
  store (after (Lifecycle.run (Lifecycle.init backend toLocaleTimeString w)))
  = store (after (fetchAll backend toLocaleTimeString w)) /\
  eventSources (after (Lifecycle.run (Lifecycle.init backend toLocaleTimeString w)))
  = S (eventSources w) /\
  Lifecycle.intervals (Lifecycle.init backend toLocaleTimeString w)
  = [Lifecycle.mkInterval 30000] /\
  (forall s t0,
     after (Lifecycle.run
              (Lifecycle.init backend toLocaleTimeString (mkWorld s t0 [] 0)))
     = Channel.connected_at
         (store (after (fetchAll backend toLocaleTimeString (mkWorld s t0 [] 0))))
         t0).
Proof.
  rewrite init_run. cbn [Lifecycle.run Lifecycle.intervals outcome emitted after
                           store eventSources].
  repeat (split; [reflexivity |]).
  intros s t0. rewrite init_run. reflexivity.
Qed.

Lemma tick_run (w : World) :
  Lifecycle.tick backend toLocaleTimeString w
  = mkRun (Normal tt) (after (fetchAll backend toLocaleTimeString w))
          (emitted (fetchAll backend toLocaleTimeString w)).
Proof.
  unfold Lifecycle.tick, spawn.
  destruct (fetchAll backend toLocaleTimeString w); reflexivity.
Qed.

(** X8. The three triggers of a refresh do the same to the page: a tick
    of the interval, a push message that carries the scrape-complete tag
    and a manual trigger whose request succeeds each leave the page that
    one call of [fetchAll] leaves, and none of them throws. *)
Theorem refresh_triggers_agree (text source : string) (w : World) :
  refresh_signal JSON_parse text = true ->
  fails backend (trigger_request source) = false ->
  after (Lifecycle.tick backend toLocaleTimeString w)
  = after (fetchAll backend toLocaleTimeString w) /\
  after (Channel.onmessage backend toLocaleTimeString JSON_parse text w)
  = after (fetchAll backend toLocaleTimeString w) /\
  after (triggerScrape backend toLocaleTimeString source w)
  = after (fetchAll backend toLocaleTimeString w) /\
  outcome (Lifecycle.tick backend toLocaleTimeString w) = Normal tt /\
  outcome (Channel.onmessage backend toLocaleTimeString JSON_parse text w) = Normal tt /\
  outcome (triggerScrape backend toLocaleTimeString source w) = Normal tt.
Proof.
  intros Hsig Hok.
  rewrite tick_run, onmessage_cases, Hsig, triggerScrape_cases.
  unfold fails in Hok.
  destruct (backend (trigger_request source)) as [[|v]|]; try discriminate.
  repeat split.
Qed.

(** *** Runs of the channel *)

#[local] Abbreviation step := (Channel.step backend toLocaleTimeString JSON_parse).
#[local] Abbreviation steps := (Channel.steps backend toLocaleTimeString JSON_parse).
#[local] Abbreviation onmessage :=
  (Channel.onmessage backend toLocaleTimeString JSON_parse).

Lemma onmessage_connected (text : string) (w : World) :
  sseConnected (store (after (onmessage text w))) = sseConnected (store w).
Proof.
  rewrite onmessage_cases. destruct (refresh_signal JSON_parse text);
    cbn [after]; [| reflexivity].
  apply (refresh_rest backend toLocaleTimeString w).
Qed.

Lemma step_connected (i : Channel.Input) (w w' : World) :
  step i w = Some w' ->
  sseConnected (store w') = connected_after [i] (sseConnected (store w)).
Proof.
  intros Hstep.
  destruct i as [es | es text | es | dt | k]; cbn [Channel.step connected_after] in *.
  - destruct (es <? eventSources w)%nat; [| discriminate].
    injection Hstep as <-. reflexivity.
  - destruct (es <? eventSources w)%nat; [| discriminate].
    injection Hstep as <-. apply onmessage_connected.
  - destruct (es <? eventSources w)%nat; [| discriminate].
    injection Hstep as <-. reflexivity.
  - destruct (0 <=? dt); [| discriminate]. injection Hstep as <-. reflexivity.
  - destruct (nth_error (timers w) k) as [t |]; [| discriminate].
    destruct (due t <=? clock w); [| discriminate].
    injection Hstep as <-. destruct t as [d []]. reflexivity.
Qed.

(** X9. Over any run of the channel the connectivity flag is decided by
    the last open or error event on any [EventSource]: true after an
    open, false after an error. Messages (and the refreshes they start),
    the passing of time and reconnections do not move it; a reconnection
    in particular leaves it false until the new channel reports open. *)
Theorem connectivity_follows_last_signal
  (inputs : list Channel.Input) (w w' : World) :
  steps inputs w = Some w' ->
  sseConnected (store w') = connected_after inputs (sseConnected (store w)).
Proof.
  revert w. induction inputs as [| i inputs IH]; intros w Hsteps.
  - injection Hsteps as <-. reflexivity.
  - cbn [Channel.steps] in Hsteps.
    destruct (step i w) as [w1 |] eqn:Hstep; [| discriminate].
    rewrite (IH w1 Hsteps), (step_connected i w w1 Hstep).
    destruct i; reflexivity.
Qed.

Lemma step_counts (i : Channel.Input) (w w' : World) :
  step i w = Some w' ->
  eventSources w' = (eventSources w + fires [i])%nat /\
  (Channel.pending w' + fires [i])%nat = (Channel.pending w + errors [i])%nat.
Proof.
  intros Hstep. unfold Channel.pending.
  destruct i as [es | es text | es | dt | k]; cbn [Channel.step fires errors] in *.
  - destruct (es <? eventSources w)%nat; [| discriminate].
    injection Hstep as <-. cbn. lia.
  - destruct (es <? eventSources w)%nat; [| discriminate].
    injection Hstep as <-.
    destruct (onmessage_frame backend toLocaleTimeString JSON_parse text w)
      as (_ & -> & ->). lia.
  - destruct (es <? eventSources w)%nat; [| discriminate].
    injection Hstep as <-. cbn. rewrite length_app. cbn. lia.
  - destruct (0 <=? dt); [| discriminate]. injection Hstep as <-. cbn. lia.
  - destruct (nth_error (timers w) k) as [t |] eqn:Hk; [| discriminate].
    destruct (due t <=? clock w); [| discriminate].
    injection Hstep as <-. destruct t as [d []]. cbn.
    pose proof (length_drop_nth k (timers w) _ Hk). lia.
Qed.

Lemma fires_app (a b : list Channel.Input) :
  fires (a ++ b) = (fires a + fires b)%nat.
Proof.
  induction a as [| i a IH]; [reflexivity |].
  destruct i; cbn; rewrite IH; reflexivity.
Qed.

(** X10. Over any run of the channel, channels are only ever added, one
    per timer fired, and none is closed; and the reconnect timers still
    pending are those that were pending plus one per error event minus
    one per timer fired. *)
Theorem channels_grow_with_fired_timers
  (inputs : list Channel.Input) (w w' : World) :
  steps inputs w = Some w' ->
  eventSources w' = (eventSources w + fires inputs)%nat /\
  (Channel.pending w' + fires inputs)%nat
  = (Channel.pending w + errors inputs)%nat.
Proof.
  revert w. induction inputs as [| i inputs IH]; intros w Hsteps.
  - injection Hsteps as <-. cbn. lia.
  - cbn [Channel.steps] in Hsteps.
    destruct (step i w) as [w1 |] eqn:Hstep; [| discriminate].
    destruct (IH w1 Hsteps) as (He & Hp).
    destruct (step_counts i w w1 Hstep) as (He1 & Hp1).
    change (i :: inputs) with ([i] ++ inputs)%list.
    rewrite fires_app, errors_app. lia.
Qed.

End Startup.

Lemma refresh_triggers_agree_witness :
  after (Channel.onmessage answering_null (fun _ => "12:00:00")
           (fun _ => Some (JObj [("event", JStr "scrape_complete")]))
           "{event: scrape_complete}" page0)
  = after (fetchAll answering_null (fun _ => "12:00:00") page0).
Proof.
  apply (refresh_triggers_agree
           answering_null (fun _ => "12:00:00")
           (fun _ => Some (JObj [("event", JStr "scrape_complete")]))
           "{event: scrape_complete}" "reddit" page0); reflexivity.
Defined.

Lemma connectivity_follows_last_signal_witness :
  sseConnected (store awaiting_reconnect) = false.
Proof.
  apply (connectivity_follows_last_signal offline (fun _ => "12:00:00")
           (fun _ => None)
           [Channel.Open_ 0; Channel.Error_ 0; Channel.Elapse 5000]
           (Channel.connected_at initial 0) awaiting_reconnect).
  reflexivity.
Defined.

Lemma channels_grow_with_fired_timers_witness :
  eventSources awaiting_reconnect = (1 + 0)%nat /\
  (Channel.pending awaiting_reconnect + 0)%nat = (0 + 1)%nat.
Proof.
  apply (channels_grow_with_fired_timers offline (fun _ => "12:00:00")
           (fun _ => None)
           [Channel.Error_ 0; Channel.Elapse 5000]
           (Channel.connected_at initial 0) awaiting_reconnect).
  reflexivity.
Defined.

(** ** More on the formatters *)

(** X11. For a timestamp that is present: if it does not parse,
    [timeAgo] answers "NaNd ago"; if it parses to a time value whose
    distance [d] in milliseconds from the clock is a safe integer (at most
    [2^53] either way, where the script computes without rounding), the
    answer depends on [d] alone: "just now" below one minute (a timestamp
    in the future included), then the whole elapsed minutes up to the
    hour, the whole elapsed hours up to the day, and the whole elapsed
    days from then on, each rounded down. *)
Theorem timeAgo_table (Date_parse : string -> option Z) (now : Z) (s : string) :
  s <> "" ->
  time_value now ->
  match Date_parse s with
  | None => Formatters.timeAgo Date_parse now (Formatters.Str s) = "NaNd ago"
  | Some t =>
      time_value t ->
      exact_difference now t ->
      let d := now - t in
      (d < 60000 ->
       Formatters.timeAgo Date_parse now (Formatters.Str s) = "just now") /\
      (60000 <= d < 3600000 ->
       Formatters.timeAgo Date_parse now (Formatters.Str s)
       = Js.show (d / 60000) ++ "m ago") /\
      (3600000 <= d < 86400000 ->
       Formatters.timeAgo Date_parse now (Formatters.Str s)
       = Js.show (d / 3600000) ++ "h ago") /\
      (86400000 <= d ->
       Formatters.timeAgo Date_parse now (Formatters.Str s)
       = Js.show (d / 86400000) ++ "d ago")
  end.
Proof.
  intros Hs _.
  assert (Hne : String.eqb s "" = false) by (apply String.eqb_neq; exact Hs).
  unfold Formatters.timeAgo. cbn [Formatters.absent]. rewrite Hne.
  destruct (Date_parse s) as [t |]; [| reflexivity].
  intros _ _. cbv zeta. set (d := now - t).
  assert (Hh : d / 60000 / 60 = d / 3600000)
    by (rewrite Z.div_div by lia; reflexivity).
  assert (Hd : d / 60000 / 60 / 24 = d / 86400000)
    by (rewrite !Z.div_div by lia; reflexivity).
  split; [| split; [| split]]; intros Hr.
  - assert (H : (d / 60000 <? 1) = true) by (apply Z.ltb_lt; Z.div_mod_to_equations; lia). rewrite H. reflexivity.
  - assert (H1 : (d / 60000 <? 1) = false) by (apply Z.ltb_ge; Z.div_mod_to_equations; lia).
    assert (H2 : (d / 60000 <? 60) = true) by (apply Z.ltb_lt; Z.div_mod_to_equations; lia).
    rewrite H1, H2. reflexivity.
  - assert (H1 : (d / 60000 <? 1) = false) by (apply Z.ltb_ge; Z.div_mod_to_equations; lia).
    assert (H2 : (d / 60000 <? 60) = false) by (apply Z.ltb_ge; Z.div_mod_to_equations; lia).
    assert (H3 : (d / 60000 / 60 <? 24) = true) by (apply Z.ltb_lt; Z.div_mod_to_equations; lia).
    rewrite H1, H2, H3, Hh. reflexivity.
  - assert (H1 : (d / 60000 <? 1) = false) by (apply Z.ltb_ge; Z.div_mod_to_equations; lia).
    assert (H2 : (d / 60000 <? 60) = false) by (apply Z.ltb_ge; Z.div_mod_to_equations; lia).
    assert (H3 : (d / 60000 / 60 <? 24) = false) by (apply Z.ltb_ge; Z.div_mod_to_equations; lia).
    rewrite H1, H2, H3, Hd. reflexivity.
Qed.

Lemma timeAgo_table_witness :
  Formatters.timeAgo (fun _ => Some 0) 172800000 (Formatters.Str "1970-01-01T00:00:00")
  = Js.show (172800000 / 86400000) ++ "d ago".
Proof.
  pose proof (timeAgo_table (fun _ => Some 0) 172800000 "1970-01-01T00:00:00") as H.
  cbv beta iota zeta in H.
  apply H; unfold time_value, exact_difference; [discriminate | lia ..].
Defined.

Lemma all_from_spec (p : Z -> bool) (n : nat) :
  forall lo, all_from p lo n = true ->
  forall z, lo <= z < lo + Z.of_nat n -> p z = true.
Proof.
  induction n as [| n IH]; intros lo Hall z Hz; [lia |].
  cbn [all_from] in Hall. apply andb_true_iff in Hall as (Hlo & Hrest).
  destruct (Z.eq_dec z lo) as [-> | Hne]; [exact Hlo |].
  apply (IH (lo + 1) Hrest). lia.
Qed.

Lemma thousands_checked : all_from thousands_ok 1000 (Z.to_nat 99000) = true.
Proof. vm_compute. reflexivity. Qed.

Lemma plain_checked : all_from plain_ok 0 (Z.to_nat 1000) = true.
Proof. vm_compute. reflexivity. Qed.

Lemma rollover_checked :
  all_from (fun n => String.eqb (Formatters.formatNumber n) "1000.0K")
           999950 (Z.to_nat 50) = true.
Proof. vm_compute. reflexivity. Qed.

(** X12. A count from 0 to 999 is printed as its decimal digits. A count
    from 1000 to 99999 is printed as a number with one decimal followed
    by "K", and that number of tenths of a thousand is within 50 of the
    count: the abbreviation is never off by more than 0.05K. *)
Theorem formatNumber_accuracy (n : Z) :
  0 <= n < 100000 ->
  (n < 1000 -> Formatters.formatNumber n = Js.show n) /\
  (1000 <= n ->
   exists k, Formatters.formatNumber n = Js.point1 k ++ "K" /\
             - 50 <= 100 * k - n <= 50).
Proof.
  intros Hn. split; intros Hr.
  - apply String.eqb_eq.
    apply (all_from_spec plain_ok _ 0 plain_checked n). lia.
  - pose proof (all_from_spec thousands_ok _ 1000 thousands_checked n) as Hok.
    assert (Hin : 1000 <= n < 1000 + Z.of_nat (Z.to_nat 99000)) by lia.
    specialize (Hok Hin). unfold thousands_ok in Hok. cbv zeta in Hok.
    apply andb_true_iff in Hok as (Hok & Hk).
    apply andb_true_iff in Hok as (Hm & Ht).
    apply negb_true_iff in Hm.
    unfold Formatters.formatNumber. cbv zeta. rewrite Hm, Ht.
    unfold Js.toFixed1.
    destruct (Prim2SF _) as [| | | [|] m e]; try discriminate.
    exists (Js.tenths m e). split; [reflexivity |].
    apply Z.leb_le in Hk. lia.
Qed.

Lemma formatNumber_accuracy_witness :
  exists k, Formatters.formatNumber 1150 = Js.point1 k ++ "K" /\
            - 50 <= 100 * k - 1150 <= 50.
Proof.
  apply (formatNumber_accuracy 1150); lia.
Defined.

(** X13. The fifty counts from 999950 to 999999 are all printed as
    "1000.0K": they round up to a thousand thousands inside the "K"
    branch and are not carried over to "1.0M". *)
Theorem formatNumber_rollover (n : Z) :
  999950 <= n < 1000000 -> Formatters.formatNumber n = "1000.0K".
Proof.
  intros Hn. apply String.eqb_eq.
  apply (all_from_spec _ _ 999950 rollover_checked n). lia.
Qed.

Lemma formatNumber_rollover_witness : Formatters.formatNumber 999999 = "1000.0K".
Proof. apply (formatNumber_rollover 999999). lia. Defined.

(** ** The template helpers *)

Section ActiveSources.

Variable backend : Backend.
Variable toLocaleTimeString : Z -> string.

(** X14. After a refresh whose stats query was answered with an object
    that maps [per_source] to an object, [activeSources] is the number of
    keys of that object: the number of sources with posts. *)
Theorem activeSources_counts_sources
  (w : World) (fields per : list (string * json)) :
  backend (request_of QStats (store w)) = Some (Parsed (JObj fields)) ->
  assoc "per_source" fields = Some (JObj per) ->
  Helpers.activeSources (store (after (fetchAll backend toLocaleTimeString w)))
  = inr (List.length per).
Proof.
  intros Hreply Hper.
  pose proof (refresh_field backend toLocaleTimeString QStats w) as Hf.
  rewrite Hreply in Hf. cbn [field_of] in Hf.
  unfold Helpers.activeSources. rewrite Hf, Hper. reflexivity.
Qed.

(** X15. After a refresh whose stats query failed, [activeSources] is
    what it was before the refresh. After one whose stats query was
    answered with the JSON value null, [activeSources] throws; after one
    answered with an object without [per_source], or with any value that
    is not an object, it is zero. *)
Theorem activeSources_edges (w : World) :
  match backend (request_of QStats (store w)) with
  | Some (Parsed JNull) =>
      exists e,
        Helpers.activeSources (store (after (fetchAll backend toLocaleTimeString w)))
        = inl e
  | Some (Parsed (JObj fields)) =>
      match assoc "per_source" fields with
      | Some _ => True
      | None =>
          Helpers.activeSources (store (after (fetchAll backend toLocaleTimeString w)))
          = inr 0%nat
      end
  | Some (Parsed _) =>
      Helpers.activeSources (store (after (fetchAll backend toLocaleTimeString w)))
      = inr 0%nat
  | _ =>
      Helpers.activeSources (store (after (fetchAll backend toLocaleTimeString w)))
      = Helpers.activeSources (store w)
  end.
Proof.
  pose proof (refresh_field backend toLocaleTimeString QStats w) as Hf.
  cbn [field_of] in Hf. unfold Helpers.activeSources.
  destruct (backend (request_of QStats (store w))) as [[| v] |]; rewrite Hf;
    try reflexivity.
  destruct v as [| b | n | s | items | fields]; try reflexivity.
  - eexists. reflexivity.
  - destruct (assoc "per_source" fields); [exact I | reflexivity].
Qed.

End ActiveSources.

Lemma activeSources_counts_sources_witness :
  Helpers.activeSources
    (store (after (fetchAll
                     (fun _ => Some (Parsed (JObj [("per_source",
                         JObj [("reddit", JNum 4); ("news", JNum 2)])])))
                     (fun _ => "12:00:00") page0)))
  = inr 2%nat.
Proof.
  apply (activeSources_counts_sources
           (fun _ => Some (Parsed (JObj [("per_source",
               JObj [("reddit", JNum 4); ("news", JNum 2)])])))
           (fun _ => "12:00:00") page0
           [("per_source", JObj [("reddit", JNum 4); ("news", JNum 2)])]
           [("reddit", JNum 4); ("news", JNum 2)]); reflexivity.
Defined.

(** X16. [sourceColor] and the palette of the chart agree: on every tag
    that is not a name inherited from [Object.prototype], known or
    unknown, [sourceColor] gives the colour that [renderChart] uses as
    the border colour of that source's series. *)
Theorem sourceColor_matches_chart
  (src : string) (hours : list string) (hourMap : gmap string Z) :
  inherited src = false ->
  Helpers.sourceColor src
  = Helpers.Color (borderColor (dataset_of hours (src, hourMap))).
Proof.
  intros Hplain. unfold Helpers.sourceColor, dataset_of, color_of, colors.
  cbn [borderColor assoc]. rewrite Hplain.
  rewrite (String.eqb_sym "twitter" src), (String.eqb_sym "reddit" src),
    (String.eqb_sym "news" src).
  destruct (String.eqb_spec src "twitter") as [-> | _]; [reflexivity |].
  destruct (String.eqb_spec src "reddit") as [-> | _]; [reflexivity |].
  destruct (String.eqb_spec src "news") as [-> | _]; reflexivity.
Qed.

Lemma sourceColor_matches_chart_witness :
  Helpers.sourceColor "mastodon"
  = Helpers.Color (borderColor (dataset_of [] ("mastodon", ∅))).
Proof. apply (sourceColor_matches_chart "mastodon" [] ∅). reflexivity. Defined.

(** ** More on the chart *)

#[local] Instance str_le_antisym : AntiSymm eq str_le.
Proof. intros a b Hab Hba. apply String.leb_antisym; assumption. Qed.

(** X17. The hour axis does not depend on the order of the rows: two
    activity payloads with the same rows in different orders give the
    same axis. *)
Theorem allHours_order_independent (rows rows' : list ActivityRow) :
  Permutation rows rows' -> allHours rows = allHours rows'.
Proof.
  intros Hperm. unfold allHours.
  apply (StronglySorted_unique str_le);
    try (apply StronglySorted_merge_sort; typeclasses eauto).
  rewrite !merge_sort_Permutation.
  destruct (Set_values_spec (map hour rows)) as (Hnd & Hin).
  destruct (Set_values_spec (map hour rows')) as (Hnd' & Hin').
  apply NoDup_Permutation; [exact Hnd | exact Hnd' |].
  intros h. rewrite !list_elem_of_In, Hin, Hin'. split; intros H.
  - apply (Permutation_in _ (Permutation_map hour Hperm)), H.
  - apply (Permutation_in _ (Permutation_sym (Permutation_map hour Hperm))), H.
Qed.

Lemma allHours_order_independent_witness :
  allHours scenario = allHours (rev scenario).
Proof.
  apply (allHours_order_independent scenario (rev scenario)).
  apply Permutation_rev.
Defined.

Lemma group_keys_from (rows : list ActivityRow) :
  forall sources,
    map fst (fold_left (fun sources row =>
                          put (source row) (hour row) (count row) sources)
                       rows sources)
    = fold_left (fun seen x => if existsb (String.eqb x) seen then seen
                               else (seen ++ [x])%list)
                (map source rows) (map fst sources).
Proof.
  induction rows as [| r rows IH]; intros sources; [reflexivity |].
  cbn [fold_left map]. rewrite IH, put_keys. reflexivity.
Qed.

Lemma Object_entries_plain {V : Type} (o : list (string * V)) :
  forallb (fun kv => match array_index (fst kv) with
                     | Some _ => false
                     | None => true
                     end) o = true ->
  Object_entries o = o.
Proof.
  intros Hall. unfold Object_entries.
  assert (Hnone : omap (fun kv : string * V =>
                          match array_index (fst kv) with
                          | Some n => Some (n, kv)
                          | None => None
                          end) o = []).
  { induction o as [| kv o IH]; [reflexivity |].
    cbn in Hall. apply andb_true_iff in Hall as (Hkv & Hall).
    cbn. destruct (array_index (fst kv)); [discriminate |]. apply IH, Hall. }
  rewrite Hnone. cbn.
  clear Hnone. induction o as [| kv o IH]; [reflexivity |].
  cbn in Hall. apply andb_true_iff in Hall as (Hkv & Hall).
  cbn. rewrite Hkv. f_equal. apply IH, Hall.
Qed.

(** X18. When the source tags are ASCII strings and none of them is an
    array index (a canonical decimal number), the series of the chart are
    listed in the order in which their sources first appear in the rows,
    one series per source, each labelled with its tag, the first letter
    in upper case. *)
Theorem series_in_order_of_first_appearance
  (formatHour : string -> string) (rows : list ActivityRow) :
  forallb plain_row rows = true ->
  forallb (fun r => ascii_only (source r)) rows = true ->
  forallb (fun r => match array_index (source r) with
                    | Some _ => false
                    | None => true
                    end) rows = true ->
  exists cd,
    chartData formatHour rows = Some cd /\
    map label (datasets cd) = map capitalize (Set_values (map source rows)).
Proof.
  intros Hplain _ Hnames.
  eexists. split; [apply chartData_plain, Hplain |].
  cbn [datasets].
  assert (Hkeys : map fst (group_by_source rows) = Set_values (map source rows)).
  { unfold group_by_source, Set_values.
    rewrite (group_by_source_own rows Hplain), group_keys_from. reflexivity. }
  assert (Hall : forallb (fun kv : string * gmap string Z =>
                            match array_index (fst kv) with
                            | Some _ => false
                            | None => true
                            end) (group_by_source rows) = true).
  { apply forallb_forall. intros [k m] Hin. cbn [fst].
    assert (Hk : In k (map fst (group_by_source rows))).
    { apply in_map_iff. exists (k, m). split; [reflexivity | exact Hin]. }
    rewrite Hkeys in Hk.
    apply (proj1 (proj2 (Set_values_spec (map source rows)) k)) in Hk.
    apply in_map_iff in Hk as (r & <- & Hr).
    rewrite forallb_forall in Hnames. apply (Hnames r Hr). }
  rewrite (Object_entries_plain _ Hall), <- Hkeys.
  rewrite !List.map_map. apply map_ext. intros [k m]. reflexivity.
Qed.

Lemma series_in_order_of_first_appearance_witness :
  exists cd,
    chartData (fun h => h) scenario = Some cd /\
    map label (datasets cd) = map capitalize (Set_values (map source scenario)).
Proof.
  apply (series_in_order_of_first_appearance (fun h => h) scenario); reflexivity.
Defined.

(** X19. With the canvas in place, an activity payload that is not an
    array, or an array with a null element, makes [renderChart] throw
    after it has destroyed the chart it held and before it builds another:
    afterwards no chart is live, no chart has been added, and the handle
    still holds the destroyed chart. *)
Theorem renderChart_bad_payload
  (formatHour : string -> string) (activityData : json) (w : Window) :
  reachable formatHour w ->
  pivot_throws activityData = true ->
  (exists e, fst (renderChart formatHour true activityData w) = Abrupt e) /\
  live_charts (snd (renderChart formatHour true activityData w)) = [] /\
  List.length (charts (snd (renderChart formatHour true activityData w)))
  = List.length (charts w) /\
  _activityChart (snd (renderChart formatHour true activityData w))
  = _activityChart w.
Proof.
  intros Hr Hbad. pose proof (reachable_tidy formatHour w Hr) as Ht.
  unfold renderChart. cbn [negb]. rewrite Hbad. cbn [fst snd].
  split; [eexists; reflexivity |].
  split; [apply release_no_live, Ht |].
  split; [apply release_length | apply release_handle].
Qed.

Lemma renderChart_bad_payload_witness :
  live_charts
    (snd (renderChart (fun h => h) true (JObj [("detail", JStr "Not Found")])
            (snd (renderChart (fun h => h) true (JArr []) fresh))))
  = [].
Proof.
  apply (renderChart_bad_payload (fun h => h) (JObj [("detail", JStr "Not Found")])
           (snd (renderChart (fun h => h) true (JArr []) fresh))
           (reach_render (fun h => h) true (JArr []) fresh (reach_fresh (fun h => h)))).
  reflexivity.
Defined.

(** *** Every count is shown once *)

Lemma total_app (a b : list Z) : total (a ++ b) = total a + total b.
Proof.
  unfold total. induction a as [| x a IH]; cbn [app fold_right]; [reflexivity | lia].
Qed.

Lemma total_concat (ls : list (list Z)) : total (concat ls) = total (map total ls).
Proof.
  induction ls as [| l ls IH]; [reflexivity |].
  cbn [concat map]. rewrite total_app, IH. reflexivity.
Qed.

Lemma total_map_add {A : Type} (f g : A -> Z) (l : list A) :
  total (map (fun x => f x + g x) l) = total (map f l) + total (map g l).
Proof.
  unfold total. induction l as [| x l IH]; cbn [map fold_right]; [reflexivity | lia].
Qed.

Lemma total_map_zero {A : Type} (l : list A) : total (map (fun _ => 0) l) = 0.
Proof.
  unfold total. induction l as [| x l IH]; cbn [map fold_right]; [reflexivity | lia].
Qed.

(** A NoDup list holds [x] once: summing [c] at [x] gives [c]. *)
Lemma total_at (x : string) (c : Z) (l : list string) :
  NoDup l ->
  total (map (fun y => if String.eqb x y then c else 0) l)
  = if existsb (String.eqb x) l then c else 0.
Proof.
  induction l as [| y l IH]; intros Hnd; [reflexivity |].
  apply NoDup_cons in Hnd as (Hnotin & Hnd).
  specialize (IH Hnd). unfold total in *. cbn [map fold_right existsb].
  rewrite IH.
  destruct (String.eqb_spec x y) as [<- | Hne]; cbn [orb]; [| lia].
  destruct (existsb (String.eqb x) l) eqn:He; [| lia].
  apply existsb_eqb_In in He. exfalso. apply Hnotin, list_elem_of_In, He.
Qed.

Lemma find_app_local {A : Type} (f : A -> bool) (l l' : list A) :
  List.find f (l ++ l')
  = match List.find f l with
    | Some x => Some x
    | None => List.find f l'
    end.
Proof.
  induction l as [| a l IH]; [reflexivity |].
  cbn. destruct (f a); [reflexivity | exact IH].
Qed.

Lemma count_at_cons (r : ActivityRow) (rows : list ActivityRow) (s h : string) :
  NoDup (map row_key (r :: rows)) ->
  count_at (r :: rows) s h
  = count_at rows s h
    + (if String.eqb (source r) s && String.eqb (hour r) h then count r else 0).
Proof.
  intros Hnd. cbn [map] in Hnd. apply NoDup_cons in Hnd as (Hnotin & _).
  unfold count_at, row_at. cbn [rev]. rewrite find_app_local. cbn [List.find].
  destruct (String.eqb (source r) s && String.eqb (hour r) h) eqn:Hm.
  - apply andb_true_iff in Hm as (Hs & Hh).
    apply String.eqb_eq in Hs, Hh. subst s h.
    fold (row_at rows (source r) (hour r)).
    rewrite row_at_none; [lia |].
    intros r' Hin (Hs & Hh). apply Hnotin, list_elem_of_In, in_map_iff.
    exists r'. split; [unfold row_key; congruence | exact Hin].
  - destruct (List.find _ (rev rows)); lia.
Qed.

Lemma grid_total (rows : list ActivityRow) (S H : list string) :
  NoDup S -> NoDup H ->
  NoDup (map row_key rows) ->
  (forall r, In r rows -> In (source r) S /\ In (hour r) H) ->
  total (map (fun s => total (map (fun h => count_at rows s h) H)) S)
  = total (map count rows).
Proof.
  intros HS HH. induction rows as [| r rows IH]; intros Hnd Hin.
  - transitivity (total (map (fun _ : string => 0) S)); [| apply total_map_zero].
    f_equal. apply map_ext. intros s. exact (total_map_zero H).
  - assert (Hnd' : NoDup (map row_key rows)).
    { cbn [map] in Hnd. apply NoDup_cons in Hnd as (_ & Hnd). exact Hnd. }
    assert (Hstep : forall s,
              total (map (fun h => count_at (r :: rows) s h) H)
              = total (map (fun h => count_at rows s h) H)
                + (if String.eqb (source r) s then count r else 0)).
    { intros s.
      rewrite (map_ext _ (fun h => count_at rows s h
                 + (if String.eqb (source r) s && String.eqb (hour r) h
                    then count r else 0)))
        by (intros h; apply count_at_cons, Hnd).
      rewrite total_map_add. f_equal.
      destruct (String.eqb (source r) s); cbn [andb]; [| apply total_map_zero].
      rewrite (total_at (hour r) (count r) H HH).
      destruct (Hin r (or_introl eq_refl)) as (_ & Hh).
      apply existsb_eqb_In in Hh. rewrite Hh. reflexivity. }
    rewrite (map_ext _ _ Hstep), total_map_add.
    rewrite IH; [| exact Hnd' | intros r' Hr'; apply Hin; right; exact Hr'].
    rewrite (total_at (source r) (count r) S HS).
    destruct (Hin r (or_introl eq_refl)) as (Hs & _).
    apply existsb_eqb_In in Hs. rewrite Hs.
    unfold total. cbn [map fold_right]. lia.
Qed.

(** X20. When no two rows share both source and hour, the chart shows
    every count exactly once: the values of all series together add up
    to the sum of the counts of the rows. *)
Theorem chart_keeps_the_total
  (formatHour : string -> string) (rows : list ActivityRow) :
  forallb plain_row rows = true ->
  NoDup (map row_key rows) ->
  exists cd,
    chartData formatHour rows = Some cd /\
    total (concat (map data (datasets cd))) = total (map count rows).
Proof.
  intros Hplain Hnd.
  destruct (allHours_spec rows) as (_ & HndH & Hhours).
  destruct (group_by_source_grouped rows Hplain) as (HndG & Hkeys & Hmap).
  pose proof (Object_entries_Permutation (group_by_source rows)) as Hperm.
  eexists. split; [apply chartData_plain, Hplain |].
  cbn [datasets]. rewrite total_concat, !List.map_map.
  rewrite <- (grid_total rows (map fst (Object_entries (group_by_source rows)))
                (allHours rows)).
  - rewrite List.map_map. f_equal. apply map_ext_in. intros [s hourMap] Hin.
    cbn [dataset_of data fst]. f_equal. apply map_ext. intros h.
    apply (Permutation_in _ Hperm) in Hin.
    rewrite (Hmap s hourMap (assoc_In s hourMap _ HndG Hin) h).
    apply or_zero_count.
  - rewrite Hperm. exact HndG.
  - exact HndH.
  - exact Hnd.
  - intros r Hr. split.
    + apply (Permutation_in _ (Permutation_sym (Permutation_map fst Hperm))).
      apply Hkeys. exists r. split; [exact Hr | reflexivity].
    + apply Hhours. exists r. split; [exact Hr | reflexivity].
Qed.

Lemma chart_keeps_the_total_witness :
  exists cd,
    chartData (fun h => h) scenario = Some cd /\
    total (concat (map data (datasets cd))) = total (map count scenario).
Proof.
  apply (chart_keeps_the_total (fun h => h) scenario); [reflexivity |].
  apply (bool_decide_unpack _). reflexivity.
Defined.

(** X21. The label of a series does not tell sources apart that differ
    in the case of their first letter: a tag that starts with a lower-case
    ASCII letter and the same tag with that letter in upper case are two
    different sources with one and the same label. *)
Theorem labels_merge_case (c : ascii) (rest : string) :
  (97 <= N_of_ascii c <= 122)%N ->
  String c rest <> String (upper c) rest /\
  capitalize (String c rest) = capitalize (String (upper c) rest).
Proof.
  destruct c as [[|] [|] [|] [|] [|] [|] [|] [|]]; cbn; intros Hc;
    try lia; (split; [discriminate | reflexivity]).
Qed.

Lemma labels_merge_case_witness :
  capitalize "news" = capitalize "News".
Proof. apply (labels_merge_case "n" "ews"). cbn. lia. Defined.
